(** * itcomusic/soap: the SOAP envelope client, embedded in Rocq

    The development follows [soap.go].  Go strings are byte strings
    ([string]); [int] is [Z]; a nil-able pointer or interface is an
    [option]; a Go function returning [error] returns [option error]
    ([None] is the nil error) next to the state it leaves behind.

    [encoding/xml], [strings], [fmt] and [net/http] are libraries of the
    program: the parts of them that [soap.go] runs through are modelled
    in the first half of the file (token streams, struct decoding by
    field name, [strings.TrimSpace]); what depends on the caller's types
    or on the network is taken as a parameter ([Unmarshaler], [Env]). *)

From Stdlib Require Import String Ascii List ZArith Lia Bool Arith DecimalString.
Import ListNotations.
Local Open Scope string_scope.
Local Open Scope list_scope.

(** ** strings and fmt *)

Definition byte_is (c : ascii) (n : N) : bool := N.eqb (N_of_ascii c) n.

(** [asciiSpace] of package strings: '\t' '\n' '\v' '\f' '\r' ' '. *)
Definition asciiSpace (c : ascii) : bool :=
  byte_is c 9 || byte_is c 10 || byte_is c 11 || byte_is c 12 ||
  byte_is c 13 || byte_is c 32.

(** UTF-8 encodings of the other runes of [unicode.IsSpace]:
    U+0085 and U+00A0 on two bytes; U+1680, U+2000..U+200A, U+2028,
    U+2029, U+202F, U+205F and U+3000 on three. *)
Definition space2 (c1 c2 : ascii) : bool :=
  byte_is c1 194 && (byte_is c2 133 || byte_is c2 160).

Definition space3 (c1 c2 c3 : ascii) : bool :=
  (byte_is c1 225 && byte_is c2 154 && byte_is c3 128) ||
  (byte_is c1 226 && byte_is c2 128 &&
     (N.leb 128 (N_of_ascii c3) && N.leb (N_of_ascii c3) 138
      || byte_is c3 168 || byte_is c3 169 || byte_is c3 175)) ||
  (byte_is c1 226 && byte_is c2 129 && byte_is c3 159) ||
  (byte_is c1 227 && byte_is c2 128 && byte_is c3 128).

(** Width in bytes of the white-space rune that starts [s]; 0 when [s]
    does not start with one.  With [back = true] the bytes of [s] are
    read as the reversal of a string, so that the rune is the last of
    that string ([utf8.DecodeLastRuneInString]). *)
Definition spaceWidth (back : bool) (s : list ascii) : nat :=
  match s with
  | [] => 0
  | c1 :: r1 =>
    if asciiSpace c1 then 1 else
    match r1 with
    | [] => 0
    | c2 :: r2 =>
      if (if back then space2 c2 c1 else space2 c1 c2) then 2 else
      match r2 with
      | [] => 0
      | c3 :: _ =>
        if (if back then space3 c3 c2 c1 else space3 c1 c2 c3) then 3 else 0
      end
    end
  end.

(** The scanning loop of [strings.TrimLeftFunc] ([start += wid] while the
    rune at [start] is white space); [fuel] bounds the iterations. *)
Fixpoint trimRunes (back : bool) (fuel : nat) (s : list ascii) : list ascii :=
  match fuel with
  | O => s
  | S fuel' =>
    match spaceWidth back s with
    | O => s
    | w => trimRunes back fuel' (skipn w s)
    end
  end.

Definition TrimLeft (s : list ascii) : list ascii :=
  trimRunes false (length s) s.

Definition TrimRight (s : list ascii) : list ascii :=
  rev (trimRunes true (length s) (rev s)).

(** [strings.TrimSpace]: all leading and trailing white space removed. *)
Definition TrimSpace (s : string) : string :=
  string_of_list_ascii (TrimRight (TrimLeft (list_ascii_of_string s))).

(** [fmt.Sprintf("%d", n)]. *)
Definition itoa (n : Z) : string := NilZero.string_of_int (Z.to_int n).

(** ** encoding/xml: names and tokens *)

Record Name : Type := mkName { Space : string; Local : string }.

Record Attr : Type := mkAttr { AttrName : Name; Value : string }.

Record StartElement : Type := mkStart { StartName : Name; StartAttr : list Attr }.

Inductive Token : Type :=
| TStartElement (se : StartElement)
| TEndElement (n : Name)
| TCharData (s : string)
| TComment (s : string)
| TProcInst (target inst : string)
| TDirective (s : string).

(** ** soap.go: Fault and its formatter *)

Definition envelopeNS : string := "http://schemas.xmlsoap.org/soap/envelope/".

(** [type trimSpace string] *)
Definition trimSpace : Type := string.

Definition trimSpace_String (ts : trimSpace) : string := ts.

Record Fault : Type := mkFault {
  Fault_XMLName : Name;
  Code : trimSpace;
  Text : trimSpace;
  Actor : trimSpace;
  Detail : trimSpace;
  HTTPStatus : Z
}.

(** [Fault{}] *)
Definition Fault_zero : Fault := mkFault (mkName "" "") "" "" "" "" 0.

(** [func (f *Fault) Error() string] *)
Definition Fault_Error (f : option Fault) : string :=
  match f with
  | None => "soap: <nil>"
  | Some f =>
    let err := trimSpace_String (Text f) in
    let err := if negb (String.eqb (Code f) "")
               then (trimSpace_String (Code f) ++ ": " ++ err)%string else err in
    let err := if negb (String.eqb (Detail f) "")
               then (err ++ " (" ++ trimSpace_String (Detail f) ++ ")")%string else err in
    let err := if negb (Z.eqb (HTTPStatus f) 0)
               then (err ++ " " ++ itoa (HTTPStatus f))%string else err in
    ("soap: " ++ err)%string
  end.

(** ** Go errors *)

(** The error values that flow through [soap.go]: [io.EOF],
    [*xml.SyntaxError], [xml.UnmarshalError], the errors built by
    [errors.New] and [fmt.Errorf], and a [*Fault] returned as an error. *)
Inductive error : Type :=
| io_EOF
| SyntaxError (Msg : string) (Line : Z)
| UnmarshalError (msg : string)
| errorString (msg : string)
| FaultError (f : Fault).

(** [err.Error()] *)
Definition Error (e : error) : string :=
  match e with
  | io_EOF => "EOF"
  | SyntaxError msg line =>
      ("XML syntax error on line " ++ itoa line ++ ": " ++ msg)%string
  | UnmarshalError msg => msg
  | errorString msg => msg
  | FaultError f => Fault_Error (Some f)
  end.

Definition errUnauthorized : error := errorString "soap: unauthorized".
Definition errBody : error := errorString "soap: body response is empty".

(** ** encoding/xml: the decoder *)

(** A decoder is the sequence of results its [Token()] has yet to give:
    a token, a nil token with a nil error (a [TokenReader] may give one),
    or an error, which sticks.  Past the end [Token()] gives [io.EOF]. *)
Inductive Read : Type :=
| RToken (t : Token)
| RNil
| RError (e : error).

Definition Decoder : Type := list Read.

(** [d.Token()] *)
Definition Decoder_Token (d : Decoder) : option Token * option error * Decoder :=
  match d with
  | [] => (None, Some io_EOF, [])
  | RError e :: _ => (None, Some e, d)
  | RNil :: d' => (None, None, d')
  | RToken t :: d' => (Some t, None, d')
  end.

(** [d.Skip()]: reads up to the end element that closes the element
    whose start element was read last. *)
Fixpoint Skip_loop (depth : nat) (d : Decoder) : option error * Decoder :=
  match d with
  | [] => (Some io_EOF, [])
  | RError e :: _ => (Some e, d)
  | RNil :: d' => Skip_loop depth d'
  | RToken (TStartElement _) :: d' => Skip_loop (S depth) d'
  | RToken (TEndElement _) :: d' =>
      match depth with
      | O => (None, d')
      | S depth' => Skip_loop depth' d'
      end
  | RToken _ :: d' => Skip_loop depth d'
  end.

Definition Skip (d : Decoder) : option error * Decoder := Skip_loop 0 d.

(** What a decoding step leaves: its error, the destination's value and
    the decoder. *)
Definition Outcome (V : Type) : Type := (option error * V * Decoder)%type.

(** A struct field bound to an element name ([fieldInfo] of
    [typeinfo.go]), with the decoding of an element into that field of
    the struct.  [None] is a decoding that ran out of fuel. *)
Record fieldInfo (V : Type) : Type := mkField {
  fi_name : string;
  fi_xmlns : string;
  fi_unmarshal : V -> StartElement -> Decoder -> option (Outcome V)
}.
Arguments mkField {V}.
Arguments fi_name {V}.
Arguments fi_xmlns {V}.
Arguments fi_unmarshal {V}.

Definition fieldMatches {V : Type} (start : StartElement) (fi : fieldInfo V) : bool :=
  (String.eqb (fi_xmlns fi) "" || String.eqb (fi_xmlns fi) (Space (StartName start)))
  && String.eqb (fi_name fi) (Local (StartName start)).

(** [d.unmarshalPath], for fields without parent path: the first field
    bound to the element's name decodes it. *)
Definition unmarshalPath {V : Type} (fields : list (fieldInfo V)) (sv : V)
    (start : StartElement) (d : Decoder) : option (bool * Outcome V) :=
  match find (fieldMatches start) fields with
  | Some fi =>
      match fi_unmarshal fi sv start d with
      | Some o => Some (true, o)
      | None => None
      end
  | None => Some (false, (None, sv, d))
  end.

(** The loop of [d.unmarshal] that reads an element's content up to its
    end element: a child element goes to the field bound to its name, or
    is skipped; character data is kept when the destination takes it. *)
Fixpoint unmarshal_loop {V : Type} (fuel : nat) (fields : list (fieldInfo V))
    (saveData : bool) (sv : V) (data : string) (d : Decoder)
    : option (option error * V * string * Decoder) :=
  match fuel with
  | O => None
  | S fuel' =>
    match Decoder_Token d with
    | (_, Some err, d1) => Some (Some err, sv, data, d1)
    | (Some (TStartElement t), None, d1) =>
        match unmarshalPath fields sv t d1 with
        | None => None
        | Some (_, (Some err, sv', d2)) => Some (Some err, sv', data, d2)
        | Some (true, (None, sv', d2)) =>
            unmarshal_loop fuel' fields saveData sv' data d2
        | Some (false, (None, sv', d2)) =>
            match Skip d2 with
            | (Some err, d3) => Some (Some err, sv', data, d3)
            | (None, d3) => unmarshal_loop fuel' fields saveData sv' data d3
            end
        end
    | (Some (TEndElement _), None, d1) => Some (None, sv, data, d1)
    | (Some (TCharData s), None, d1) =>
        unmarshal_loop fuel' fields saveData sv
          (if saveData then (data ++ s)%string else data) d1
    | (_, None, d1) => unmarshal_loop fuel' fields saveData sv data d1
    end
  end.

(** The [XMLName] field of a struct type: the name space and the local
    name its tag asks for, and the assignment of the field. *)
Record typeInfo (V : Type) : Type := mkTypeInfo {
  ti_xmlns : string;
  ti_name : string;
  ti_setXMLName : V -> Name -> V;
  ti_fields : list (fieldInfo V)
}.
Arguments mkTypeInfo {V}.
Arguments ti_xmlns {V}.
Arguments ti_name {V}.
Arguments ti_setXMLName {V}.
Arguments ti_fields {V}.

(** [d.unmarshal] on a struct with an [XMLName] field: the element name
    is validated and assigned, then the content is read. *)
Definition unmarshal_struct {V : Type} (ti : typeInfo V) (val : V)
    (start : StartElement) (d : Decoder) : option (Outcome V) :=
  if negb (String.eqb (ti_name ti) "")
     && negb (String.eqb (ti_name ti) (Local (StartName start)))
  then Some (Some (UnmarshalError
         ("expected element type <" ++ ti_name ti ++ "> but have <"
          ++ Local (StartName start) ++ ">")%string), val, d)
  else if negb (String.eqb (ti_xmlns ti) "")
     && negb (String.eqb (ti_xmlns ti) (Space (StartName start)))
  then Some (Some (UnmarshalError
         ("expected element <" ++ ti_name ti ++ "> in name space "
          ++ ti_xmlns ti ++ " but have "
          ++ (if String.eqb (Space (StartName start)) "" then "no name space"
              else Space (StartName start)))%string), val, d)
  else
    match unmarshal_loop (S (length d)) (ti_fields ti) false
            (ti_setXMLName ti val (StartName start)) "" d with
    | None => None
    | Some (err, v, _, d') => Some (err, v, d')
    end.

(** [d.DecodeElement(&v, &start)] for [v] of type [string]: the
    character data directly inside the element. *)
Definition DecodeElement_string (v : string) (start : StartElement) (d : Decoder)
    : option (Outcome string) :=
  match unmarshal_loop (S (length d)) (@nil (fieldInfo unit)) true tt "" d with
  | None => None
  | Some (Some err, _, _, d') => Some (Some err, v, d')
  | Some (None, _, data, d') => Some (None, data, d')
  end.

Definition isStart (r : Read) : bool :=
  match r with RToken (TStartElement _) => true | _ => false end.

Definition isEnd (r : Read) : bool :=
  match r with RToken (TEndElement _) => true | _ => false end.

(** [d.popEOF()] after [d.pushEOF()]: whether the reads made in between,
    those of [before] that [after] has no more, closed the element that
    was open at the [pushEOF]. *)
Definition popEOF (before after : Decoder) : bool :=
  let span := firstn (length before - length after) before in
  Nat.eqb (length (filter isEnd span)) (S (length (filter isStart span))).

(** [d.unmarshalInterface]: decoding through the destination's own
    [UnmarshalXML] method, which must read the whole element. *)
Definition unmarshalInterface {V : Type} (receiverType : string)
    (UnmarshalXML : V -> Decoder -> StartElement -> option (Outcome V))
    (val : V) (start : StartElement) (d : Decoder) : option (Outcome V) :=
  match UnmarshalXML val d start with
  | None => None
  | Some (Some err, v, d') => Some (Some err, v, d')
  | Some (None, v, d') =>
      if popEOF d d' then Some (None, v, d')
      else Some (Some (errorString
             ("xml: " ++ receiverType ++ ".UnmarshalXML did not consume entire <"
              ++ Local (StartName start) ++ "> element")%string), v, d')
  end.

(** The start of [d.unmarshal] when no start element is given: tokens
    are read up to the first start element. *)
Fixpoint findStart (d : Decoder) : option error * option StartElement * Decoder :=
  match d with
  | [] => (Some io_EOF, None, [])
  | RError e :: _ => (Some e, None, d)
  | RToken (TStartElement t) :: d' => (None, Some t, d')
  | _ :: d' => findStart d'
  end.

(** A field of type [F] of the struct [V], decoded by [dec]. *)
Definition field {V F : Type} (name xmlns : string) (get : V -> F)
    (set : V -> F -> V)
    (dec : F -> StartElement -> Decoder -> option (Outcome F)) : fieldInfo V :=
  mkField name xmlns (fun sv start d =>
    match dec (get sv) start d with
    | None => None
    | Some (err, f, d') => Some (err, set sv f, d')
    end).

(** ** soap.go: decoding a Fault *)

(** [func (ts *trimSpace) UnmarshalXML(d *xml.Decoder, start xml.StartElement) error] *)
Definition trimSpace_UnmarshalXML (ts : trimSpace) (d : Decoder)
    (start : StartElement) : option (Outcome trimSpace) :=
  match DecodeElement_string "" start d with
  | None => None
  | Some (Some err, _, d') => Some (Some err, ts, d')
  | Some (None, v, d') => Some (None, TrimSpace v, d')
  end.

Definition setFault_XMLName (f : Fault) (n : Name) : Fault :=
  mkFault n (Code f) (Text f) (Actor f) (Detail f) (HTTPStatus f).
Definition setCode (f : Fault) (v : trimSpace) : Fault :=
  mkFault (Fault_XMLName f) v (Text f) (Actor f) (Detail f) (HTTPStatus f).
Definition setText (f : Fault) (v : trimSpace) : Fault :=
  mkFault (Fault_XMLName f) (Code f) v (Actor f) (Detail f) (HTTPStatus f).
Definition setActor (f : Fault) (v : trimSpace) : Fault :=
  mkFault (Fault_XMLName f) (Code f) (Text f) v (Detail f) (HTTPStatus f).
Definition setDetail (f : Fault) (v : trimSpace) : Fault :=
  mkFault (Fault_XMLName f) (Code f) (Text f) (Actor f) v (HTTPStatus f).
Definition setHTTPStatus (f : Fault) (v : Z) : Fault :=
  mkFault (Fault_XMLName f) (Code f) (Text f) (Actor f) (Detail f) v.

(** A field of type [trimSpace]; its tag names no name space: the field
    is bound to the elements of its local name, in any name space. *)
Definition trimSpaceField (name : string) (get : Fault -> trimSpace)
    (set : Fault -> trimSpace -> Fault) : fieldInfo Fault :=
  field name "" get set
    (unmarshalInterface "(*soap.trimSpace)" trimSpace_UnmarshalXML).

(** The struct tags of [Fault]; [HTTPStatus] has the tag ["-"] and is no
    field for the decoder. *)
Definition Fault_typeInfo : typeInfo Fault :=
  mkTypeInfo envelopeNS "Fault" setFault_XMLName
    [ trimSpaceField "faultcode" Code setCode;
      trimSpaceField "faultstring" Text setText;
      trimSpaceField "faultactor" Actor setActor;
      trimSpaceField "detail" Detail setDetail ].

(** [d.DecodeElement(b.Fault, &se)] *)
Definition DecodeElement_Fault (f : Fault) (se : StartElement) (d : Decoder)
    : option (Outcome Fault) :=
  unmarshal_struct Fault_typeInfo f se d.

(** ** The caller's destination *)

(** [d.DecodeElement(response, &se)] for the value the caller gave as
    [response]: the error, what the caller's variable holds afterwards,
    and how many further reads of the decoder it made; [None] when the
    decoding of the caller's type does not return. *)
Class Unmarshaler (T : Type) : Type :=
  decodeElement : T -> StartElement -> Decoder -> option (option error * T * nat).

(** ** soap.go: the envelope *)

Section Soap.

(** [Req]: the request values; [I]: the header items; [T]: the contents
    of the caller's response variable; [Ctx]: [context.Context]. *)
Variables Req I T Ctx : Type.
Context {UT : Unmarshaler T}.

(** What the [interface{}] field [Content] can hold: a request value,
    the caller's [response], or the [new(interface{})] of [Call]. *)
Inductive interface : Type :=
| ifaceRequest (r : Req)
| ifaceResponse
| ifaceDiscard.

Record Header : Type := mkHeader {
  Header_XMLName : Name;
  Items : list (option I)
}.

Record Body : Type := mkBody {
  Body_XMLName : Name;
  Body_Fault : option Fault;
  Body_Content : option interface
}.

Record Envelope : Type := mkEnvelope {
  Envelope_XMLName : Name;
  Envelope_Header : option Header;
  Envelope_Body : Body
}.

Definition Name_zero : Name := mkName "" "".

Definition setBody_Fault (b : Body) (f : option Fault) : Body :=
  mkBody (Body_XMLName b) f (Body_Content b).
Definition setBody_Content (b : Body) (c : option interface) : Body :=
  mkBody (Body_XMLName b) (Body_Fault b) c.

(** [d.DecodeElement(v, &se)] for [v] an [interface{}]: a nil or
    non-pointer value is refused; a [*interface{}] takes nothing and the
    element is skipped; the caller's value decodes by its type. *)
Definition DecodeElement (v : option interface) (m : T) (se : StartElement)
    (d : Decoder) : option (Outcome T) :=
  match v with
  | None => Some (Some (errorString "non-pointer passed to Unmarshal"), m, d)
  | Some (ifaceRequest _) =>
      Some (Some (errorString "non-pointer passed to Unmarshal"), m, d)
  | Some ifaceResponse =>
      match decodeElement m se d with
      | None => None
      | Some (err, m', n) => Some (err, m', skipn n d)
      end
  | Some ifaceDiscard =>
      let '(err, d') := Skip d in Some (err, m, d')
  end.

Definition errContent : error :=
  UnmarshalError "content must be a pointer to a struct".

Definition errMultiple : error :=
  UnmarshalError "found multiple elements inside SOAP body; not wrapped-document/literal WS-I compliant".

Definition isFaultName (n : Name) : bool :=
  String.eqb (Space n) "http://schemas.xmlsoap.org/soap/envelope/"
  && String.eqb (Local n) "Fault".

(** The state of [Body.UnmarshalXML]: the error to return, [*b], the
    caller's variable, the decoder. *)
Definition BodyOutcome : Type := (option error * Body * T * Decoder)%type.

(** The two branches of [Loop] for the first start element [se]: the
    element is decoded into a new [Fault] when it has the name of one,
    and into [b.Content] otherwise. *)
Definition Body_child (b : Body) (m : T) (se : StartElement) (d : Decoder)
    : option BodyOutcome :=
  if isFaultName (StartName se) then
    let b := setBody_Content (setBody_Fault b (Some Fault_zero)) None in
    match DecodeElement_Fault Fault_zero se d with
    | None => None
    | Some (err, f, d') => Some (err, setBody_Fault b (Some f), m, d')
    end
  else
    match DecodeElement (Body_Content b) m se d with
    | None => None
    | Some (err, m', d') => Some (err, b, m', d')
    end.

(** The [Loop] of [Body.UnmarshalXML], by iteration; [None] when [fuel]
    iterations do not end it. *)
Fixpoint Body_Loop (fuel : nat) (consumed : bool) (b : Body) (m : T)
    (d : Decoder) : option BodyOutcome :=
  match fuel with
  | O => None
  | S fuel' =>
    match Decoder_Token d with
    | (_, Some err, d1) => Some (Some err, b, m, d1)
    | (None, None, d1) => Some (None, b, m, d1)
    | (Some (TStartElement se), None, d1) =>
        if consumed then Some (Some errMultiple, b, m, d1)
        else
          match Body_child b m se d1 with
          | None => None
          | Some (Some err, b', m', d2) => Some (Some err, b', m', d2)
          | Some (None, b', m', d2) => Body_Loop fuel' true b' m' d2
          end
    | (Some (TEndElement _), None, d1) => Some (None, b, m, d1)
    | (Some _, None, d1) => Body_Loop fuel' consumed b m d1
    end
  end.

(** [func (b *Body) UnmarshalXML(d *xml.Decoder, start xml.StartElement) error] *)
Definition Body_UnmarshalXML (b : Body) (m : T) (d : Decoder)
    (start : StartElement) : option BodyOutcome :=
  match Body_Content b with
  | None => Some (Some errContent, b, m, d)
  | Some _ => Body_Loop (S (length d)) false b m d
  end.

(** ** encoding/xml on the types of soap.go *)

(** [Items []interface{}]: the slice grows by a nil element, into which
    nothing is decoded: the element is skipped. *)
Definition Items_unmarshal (items : list (option I)) (start : StartElement)
    (d : Decoder) : option (Outcome (list (option I))) :=
  match Skip d with
  | (Some err, d') => Some (Some err, items, d')
  | (None, d') => Some (None, items ++ [None], d')
  end.

Definition setHeader_XMLName (h : Header) (n : Name) : Header :=
  mkHeader n (Items h).
Definition setItems (h : Header) (items : list (option I)) : Header :=
  mkHeader (Header_XMLName h) items.

Definition Header_typeInfo : typeInfo Header :=
  mkTypeInfo envelopeNS "Header" setHeader_XMLName
    [ field "Items" "" Items setItems Items_unmarshal ].

(** [Header *Header]: a nil pointer is set to a new [Header]. *)
Definition Header_unmarshal (h : option Header) (start : StartElement)
    (d : Decoder) : option (Outcome (option Header)) :=
  let h0 := match h with Some h0 => h0 | None => mkHeader Name_zero [] end in
  match unmarshal_struct Header_typeInfo h0 start d with
  | None => None
  | Some (err, h', d') => Some (err, Some h', d')
  end.

(** [*Body] has an [UnmarshalXML] method: the decoder calls it. *)
Definition Body_unmarshal (bm : Body * T) (start : StartElement)
    (d : Decoder) : option (Outcome (Body * T)) :=
  unmarshalInterface "(*soap.Body)"
    (fun bm d start =>
       match Body_UnmarshalXML (fst bm) (snd bm) d start with
       | None => None
       | Some (err, b, m, d') => Some (err, (b, m), d')
       end) bm start d.

Definition setEnvelope_XMLName (em : Envelope * T) (n : Name) : Envelope * T :=
  (mkEnvelope n (Envelope_Header (fst em)) (Envelope_Body (fst em)), snd em).
Definition setEnvelope_Header (em : Envelope * T) (h : option Header) : Envelope * T :=
  (mkEnvelope (Envelope_XMLName (fst em)) h (Envelope_Body (fst em)), snd em).
Definition setEnvelope_Body (em : Envelope * T) (bm : Body * T) : Envelope * T :=
  (mkEnvelope (Envelope_XMLName (fst em)) (Envelope_Header (fst em)) (fst bm), snd bm).

(** The struct [Envelope], decoded next to the caller's variable, which
    the decoding of its [Body] may write.  The fields [Header] and [Body]
    have no tag: they are bound to the [XMLName] of their types. *)
Definition Envelope_typeInfo : typeInfo (Envelope * T) :=
  mkTypeInfo envelopeNS "Envelope" setEnvelope_XMLName
    [ field "Header" envelopeNS (fun em => Envelope_Header (fst em))
        setEnvelope_Header Header_unmarshal;
      field "Body" envelopeNS (fun em => (Envelope_Body (fst em), snd em))
        setEnvelope_Body Body_unmarshal ].

(** [xml.Unmarshal(body, respEnvelope)], on the decoder of [body]. *)
Definition Unmarshal (d : Decoder) (env : Envelope) (m : T)
    : option (option error * Envelope * T) :=
  match findStart d with
  | (Some err, _, _) => Some (Some err, env, m)
  | (None, None, _) => Some (Some io_EOF, env, m)
  | (None, Some start, d1) =>
      match unmarshal_struct Envelope_typeInfo (env, m) start d1 with
      | None => None
      | Some (err, em, _) => Some (err, fst em, snd em)
      end
  end.

(** ** soap.go: the client *)

Record BasicAuth : Type := mkBasicAuth { Username : string; Password : string }.

Record Client : Type := mkClient {
  url : string;
  auth : option BasicAuth;
  headers : list (option I)
}.

(** [func (s *Client) AddHeader(header interface{})] *)
Definition AddHeader (s : Client) (header : option I) : Client :=
  mkClient (url s) (auth s) (headers s ++ [header]).

Record http_Request : Type := mkRequest {
  Method : string;
  URL : string;
  RequestBody : string;
  RequestHeader : list (string * string);
  RequestAuth : option (string * string);
  Close : bool
}.

Record http_Response : Type := mkResponse {
  Status : string;
  StatusCode : Z;
  ReadAll : option error * string
}.

(** What [Call] asks of its libraries: the encoder of [encoding/xml] on
    an envelope, the validation of [http.NewRequest], the exchange of
    [http.Client.Do], and the tokens that [encoding/xml] reads from the
    bytes of a response. *)
Record Env : Type := mkEnv {
  xml_Encode : Envelope -> option error * string;
  xml_Flush : Envelope -> option error;
  http_NewRequest : string -> string -> option error;
  http_Do : Ctx -> http_Request -> error + http_Response;
  xml_NewDecoder : string -> Decoder
}.

Definition Header_Add (r : http_Request) (k v : string) : http_Request :=
  mkRequest (Method r) (URL r) (RequestBody r) (RequestHeader r ++ [(k, v)])
    (RequestAuth r) (Close r).
Definition SetBasicAuth (r : http_Request) (u p : string) : http_Request :=
  mkRequest (Method r) (URL r) (RequestBody r) (RequestHeader r)
    (Some (u, p)) (Close r).
Definition setClose (r : http_Request) (c : bool) : http_Request :=
  mkRequest (Method r) (URL r) (RequestBody r) (RequestHeader r)
    (RequestAuth r) c.

Definition quote : string := String (ascii_of_nat 34) EmptyString.

(** [fmt.Errorf("soap: %s", err)] *)
Definition soapError (err : error) : error :=
  errorString ("soap: " ++ Error err)%string.

(** The envelope that [Call] encodes: a [Header] when the client has
    header items, and the request as the content of the body. *)
Definition requestEnvelope (s : Client) (request : option Req) : Envelope :=
  mkEnvelope Name_zero
    (match headers s with
     | [] => None
     | _ :: _ => Some (mkHeader Name_zero (headers s))
     end)
    (mkBody Name_zero None (option_map ifaceRequest request)).

(** The request that [Call] sends. *)
Definition postRequest (s : Client) (soapAction buffer : string) : http_Request :=
  let req := mkRequest "POST" (url s) buffer [] None false in
  let req :=
    match auth s with
    | Some a => SetBasicAuth req (Username a) (Password a)
    | None => req
    end in
  let req := Header_Add req "Content-Type"
               ("text/xml; charset=" ++ quote ++ "utf-8" ++ quote)%string in
  let req := Header_Add req "SOAPAction" soapAction in
  setClose req true.

(** [if response == nil { response = new(interface{}) }] *)
Definition orDiscard (response : option interface) : option interface :=
  match response with
  | None => Some ifaceDiscard
  | Some r => Some r
  end.

(** [&Envelope{Body: Body{Content: response}}] *)
Definition responseEnvelope (response : option interface) : Envelope :=
  mkEnvelope Name_zero None (mkBody Name_zero None response).

(** [func (s *Client) Call(ctx context.Context, soapAction string, request, response interface{}) error];
    the result is the error and what the caller's variable holds. *)
Definition Call (E : Env) (s : Client) (ctx : Ctx) (soapAction : string)
    (request : option Req) (response : option interface) (m : T)
    : option (option error * T) :=
  let response := orDiscard response in
  let envelope := requestEnvelope s request in
  match xml_Encode E envelope with
  | (Some err, _) => Some (Some (soapError err), m)
  | (None, buffer) =>
  match xml_Flush E envelope with
  | Some err => Some (Some (soapError err), m)
  | None =>
  match http_NewRequest E "POST" (url s) with
  | Some err => Some (Some (soapError err), m)
  | None =>
  match http_Do E ctx (postRequest s soapAction buffer) with
  | inl err => Some (Some (soapError err), m)
  | inr resp =>
  match ReadAll resp with
  | (Some err, _) => Some (Some (soapError err), m)
  | (None, body) =>
  if Nat.eqb (String.length body) 0 then Some (Some errBody, m)
  else if Z.eqb (StatusCode resp) 401 then Some (Some errUnauthorized, m)
  else
    let respEnvelope := responseEnvelope response in
    match Unmarshal (xml_NewDecoder E body) respEnvelope m with
    | None => None
    | Some (Some _, _, m') =>
        Some (Some (errorString
               ("soap: " ++ Status resp ++ " (" ++ itoa (StatusCode resp) ++ ")")%string),
              m')
    | Some (None, respEnvelope', m') =>
        match Body_Fault (Envelope_Body respEnvelope') with
        | Some f => Some (Some (FaultError (setHTTPStatus f (StatusCode resp))), m')
        | None => Some (None, m')
        end
    end
  end end end end end.

End Soap.

Arguments ifaceRequest {Req}.
Arguments ifaceResponse {Req}.
Arguments ifaceDiscard {Req}.
Arguments mkHeader {I}.
Arguments Header_XMLName {I}.
Arguments Items {I}.
Arguments mkBody {Req}.
Arguments Body_XMLName {Req}.
Arguments Body_Fault {Req}.
Arguments Body_Content {Req}.
Arguments mkEnvelope {Req I}.
Arguments Envelope_XMLName {Req I}.
Arguments Envelope_Header {Req I}.
Arguments Envelope_Body {Req I}.
Arguments setBody_Fault {Req}.
Arguments setBody_Content {Req}.
Arguments DecodeElement {Req T UT}.
Arguments Body_child {Req T UT}.
Arguments Body_Loop {Req T UT}.
Arguments Body_UnmarshalXML {Req T UT}.
Arguments Items_unmarshal {I}.
Arguments setHeader_XMLName {I}.
Arguments setItems {I}.
Arguments Header_typeInfo {I}.
Arguments Header_unmarshal {I}.
Arguments Body_unmarshal {Req T UT}.
Arguments setEnvelope_XMLName {Req I T}.
Arguments setEnvelope_Header {Req I T}.
Arguments setEnvelope_Body {Req I T}.
Arguments Envelope_typeInfo {Req I T UT}.
Arguments Unmarshal {Req I T UT}.
Arguments mkClient {I}.
Arguments url {I}.
Arguments auth {I}.
Arguments headers {I}.
Arguments AddHeader {I}.
Arguments mkEnv {Req I Ctx}.
Arguments xml_Encode {Req I Ctx}.
Arguments xml_Flush {Req I Ctx}.
Arguments http_NewRequest {Req I Ctx}.
Arguments http_Do {Req I Ctx}.
Arguments xml_NewDecoder {Req I Ctx}.
Arguments requestEnvelope {Req I}.
Arguments postRequest {I}.
Arguments orDiscard {Req}.
Arguments responseEnvelope {Req I}.
Arguments Call {Req I T Ctx UT}.

(** ** Documents *)

(** An XML document tree, and the tokens a decoder reads from it. *)
#[warnings="-register-all"]
Inductive Node : Type :=
| Element (start : StartElement) (children : list Node)
| CharData (s : string)
| Comment (s : string)
| ProcInst (target inst : string)
| Directive (s : string).

Fixpoint tokens (n : Node) : list Token :=
  match n with
  | Element start children =>
      TStartElement start :: flat_map tokens children
        ++ [TEndElement (StartName start)]
  | CharData s => [TCharData s]
  | Comment s => [TComment s]
  | ProcInst target inst => [TProcInst target inst]
  | Directive s => [TDirective s]
  end.

(** The reads of a decoder over a sequence of nodes. *)
Definition reads (ns : list Node) : Decoder :=
  map RToken (flat_map tokens ns).

(** The tokens after the start element of an element with these
    children: the children, then the end element. *)
Definition content (start : StartElement) (children : list Node) : Decoder :=
  reads children ++ [RToken (TEndElement (StartName start))].

Definition isElement (n : Node) : bool :=
  match n with Element _ _ => true | _ => false end.

(** The character data directly inside an element. *)
Fixpoint charData (children : list Node) : string :=
  match children with
  | [] => ""
  | CharData s :: rest => (s ++ charData rest)%string
  | _ :: rest => charData rest
  end.

(** ** The types of soap_test.go *)

(** [type response struct] *)
Record response : Type := mkResponseT {
  response_XMLName : Name;
  Attr3 : string
}.

Definition setResponse_XMLName (r : response) (n : Name) : response :=
  mkResponseT n (Attr3 r).
Definition setAttr3 (r : response) (v : string) : response :=
  mkResponseT (response_XMLName r) v.

Definition response_typeInfo : typeInfo response :=
  mkTypeInfo "test:call" "Response" setResponse_XMLName
    [ field "attr3" "" Attr3 setAttr3 DecodeElement_string ].

(** [d.DecodeElement(&r, &se)] for [r] of type [response]. *)
Definition response_Unmarshaler : Unmarshaler response :=
  fun r se d =>
    match unmarshal_struct response_typeInfo r se d with
    | None => None
    | Some (err, r', d') => Some (err, r', length d - length d')
    end.

(** [type request struct] *)
Record request : Type := mkRequestT {
  request_XMLName : Name;
  Attr1 : string;
  Attr2 : string
}.

Definition setRequest_XMLName (r : request) (n : Name) : request :=
  mkRequestT n (Attr1 r) (Attr2 r).
Definition setAttr1 (r : request) (v : string) : request :=
  mkRequestT (request_XMLName r) v (Attr2 r).
Definition setAttr2 (r : request) (v : string) : request :=
  mkRequestT (request_XMLName r) (Attr1 r) v.

Definition request_typeInfo : typeInfo request :=
  mkTypeInfo "test:call" "Request" setRequest_XMLName
    [ field "attr1" "" Attr1 setAttr1 DecodeElement_string;
      field "attr2" "" Attr2 setAttr2 DecodeElement_string ].

(** [d.DecodeElement(&req, &se)] for [req] of type [request]. *)
Definition request_Unmarshaler : Unmarshaler request :=
  fun r se d =>
    match unmarshal_struct request_typeInfo r se d with
    | None => None
    | Some (err, r', d') => Some (err, r', length d - length d')
    end.

(** The element that [xml.Marshal] writes for a [request]
    ([Test_Marshal]): its name is that of the tag of [XMLName], and a
    field that is empty is left out. *)
Definition request_marshal (r : request) : Node :=
  Element (mkStart (mkName "test:call" "Request")
             [mkAttr (mkName "" "xmlns") "test:call"])
    ((if String.eqb (Attr1 r) "" then []
      else [Element (mkStart (mkName "test:call" "attr1") []) [CharData (Attr1 r)]])
     ++ (if String.eqb (Attr2 r) "" then []
         else [Element (mkStart (mkName "test:call" "attr2") []) [CharData (Attr2 r)]])).

(** The [Unmarshaler] a test needs when nothing is decoded into the
    caller's variable: [Call(..., nil)]. *)
Definition none_Unmarshaler : Unmarshaler unit :=
  fun m se d => Some (Some (errorString "nil pointer passed to Unmarshal"), m, 0).

(** A server of [httptest]: it answers every request with this status
    and these bytes, from which the decoder reads [doc]. *)
Definition testServer (status : string) (code : Z) (body : string)
    (doc : Decoder) : Env unit unit unit :=
  mkEnv (fun _ => (None, "<Envelope/>")) (fun _ => None) (fun _ _ => None)
    (fun _ _ => inr (mkResponse status code (None, body)))
    (fun _ => doc).

Definition testClient : Client unit := mkClient "http://127.0.0.1" None [].

Definition envelopeElement (local : string) (children : list Node) : Node :=
  Element (mkStart (mkName envelopeNS local) [mkAttr (mkName "" "xmlns") envelopeNS])
    children.

Definition testElement (local : string) (children : list Node) : Node :=
  Element (mkStart (mkName "test:call" local) []) children.

(** The response of [TestClient_Fault]. *)
Definition faultDocument : list Node :=
  [ envelopeElement "Envelope"
      [ envelopeElement "Body"
          [ envelopeElement "Fault"
              [ envelopeElement "faultstring" [CharData "      fault text"] ] ] ] ].

(** The response of [TestClient_EmptyAction]. *)
Definition emptyDocument : list Node :=
  [ envelopeElement "Envelope" [ envelopeElement "Body" [] ] ].

(** The start element of a body, and bodies given for decoding into the
    caller's variable, into nothing, and with a fault already set. *)
Definition bodyStart : StartElement :=
  mkStart (mkName envelopeNS "Body") [mkAttr (mkName "" "xmlns") envelopeNS].

Definition testBody : Body unit := mkBody Name_zero None (Some ifaceResponse).

Definition nilBody : Body unit := mkBody Name_zero None None.

Definition response_zero : response := mkResponseT Name_zero "".

Definition request_zero : request := mkRequestT Name_zero "" "".

Definition testFault : Fault :=
  mkFault (mkName envelopeNS "Fault") "" "fault text" "" "" 0.

(** ** Notions used in the statements *)

(** A token that is neither a start element nor an end element. *)
Definition isOther (t : Token) : bool :=
  match t with
  | TStartElement _ | TEndElement _ => false
  | _ => true
  end.

(** A read that gives such a token. *)
Definition isOtherRead (r : Read) : bool :=
  match r with
  | RToken t => isOther t
  | _ => false
  end.

(** A read that [findStart] passes over. *)
Definition isProlog (r : Read) : bool :=
  match r with
  | RToken (TStartElement _) | RError _ => false
  | _ => true
  end.

(** The encoding of one white-space rune. *)
Definition isSpaceRune (r : list ascii) : bool :=
  match r with
  | [c1] => asciiSpace c1
  | [c1; c2] => space2 c1 c2
  | [c1; c2; c3] => space3 c1 c2 c3
  | _ => false
  end.

(** A sequence of white-space runes. *)
Inductive spaces : list ascii -> Prop :=
| spaces_nil : spaces []
| spaces_app r s : isSpaceRune r = true -> spaces s -> spaces (r ++ s).

(** [t] is [s] without its leading and trailing white space. *)
Definition trimmed (s t : string) : Prop :=
  exists l r,
    spaces l /\ spaces r /\
    list_ascii_of_string s = l ++ list_ascii_of_string t ++ r /\
    (forall x y, isSpaceRune x = true -> list_ascii_of_string t <> x ++ y) /\
    (forall x y, isSpaceRune x = true -> list_ascii_of_string t <> y ++ x).

(** The child elements that the field [name] of a [Fault] is bound to:
    those of this local name, whatever their name space. *)
Definition isFaultField (name : string) (n : Node) : bool :=
  match n with
  | Element se _ => String.eqb name (Local (StartName se))
  | _ => false
  end.

(** The value of the field [name] after the decoding of these children,
    [v] being its value before: each child bound to the field assigns
    it. *)
Fixpoint fieldText (name : string) (v : trimSpace) (children : list Node)
    : trimSpace :=
  match children with
  | [] => v
  | Element se kids :: rest =>
      if isFaultField name (Element se kids)
      then fieldText name (TrimSpace (charData kids)) rest
      else fieldText name v rest
  | _ :: rest => fieldText name v rest
  end.

(** An environment that differs by its XML tokenizer only. *)
Definition setNewDecoder {Req I Ctx : Type} (E : Env Req I Ctx)
    (newDecoder : string -> Decoder) : Env Req I Ctx :=
  mkEnv (xml_Encode E) (xml_Flush E) (http_NewRequest E) (http_Do E) newDecoder.

(** A decoding step that leaves a decoder no longer than it found it. *)
Definition consuming {V : Type}
    (dec : V -> StartElement -> Decoder -> option (Outcome V)) : Prop :=
  forall v se d err v' d',
    dec v se d = Some (err, v', d') -> length d' <= length d.

(** A decoding step that returns on every input. *)
Definition returning {V : Type}
    (dec : V -> StartElement -> Decoder -> option (Outcome V)) : Prop :=
  forall v se d, dec v se d <> None.

(** The struct after the decoding of these children, when [upd] says
    what the field bound to a child makes of it. *)
Fixpoint applyChildren {V : Type} (fields : list (fieldInfo V))
    (upd : StartElement -> list Node -> V -> V) (children : list Node)
    (sv : V) : V :=
  match children with
  | [] => sv
  | Element se kids :: rest =>
      match find (fieldMatches se) fields with
      | Some _ => applyChildren fields upd rest (upd se kids sv)
      | None => applyChildren fields upd rest sv
      end
  | _ :: rest => applyChildren fields upd rest sv
  end.

(** What the child [se] with children [kids] makes of a [Fault]. *)
Definition Fault_assign (se : StartElement) (kids : list Node) (f : Fault) : Fault :=
  let v := TrimSpace (charData kids) in
  let l := Local (StartName se) in
  if String.eqb "faultcode" l then setCode f v
  else if String.eqb "faultstring" l then setText f v
  else if String.eqb "faultactor" l then setActor f v
  else if String.eqb "detail" l then setDetail f v
  else f.

(** The string field of a [Fault] that the element name [name] is bound
    to. *)
Definition Fault_field (name : string) (f : Fault) : option trimSpace :=
  if String.eqb name "faultcode" then Some (Code f)
  else if String.eqb name "faultstring" then Some (Text f)
  else if String.eqb name "faultactor" then Some (Actor f)
  else if String.eqb name "detail" then Some (Detail f)
  else None.

(** The elements that a field without tag of [Envelope] is bound to. *)
Definition isEnvelopeField (name : string) (n : Name) : bool :=
  String.eqb envelopeNS (Space n) && String.eqb name (Local n).

(** What a child of the header makes of it. *)
Definition Header_assign {I : Type} (se : StartElement) (kids : list Node)
    (h : Header I) : Header I :=
  setItems h (Items h ++ [None]).

(** The header after the decoding of a header element. *)
Definition Header_decoded {I : Type} (h : option (Header I)) (se : StartElement)
    (kids : list Node) : Header I :=
  applyChildren (ti_fields Header_typeInfo) Header_assign kids
    (setHeader_XMLName
       (match h with Some h0 => h0 | None => mkHeader Name_zero [] end)
       (StartName se)).

(** What a child of the envelope makes of it when its bodies are empty:
    a header is decoded, a body changes nothing. *)
Definition Envelope_assign {Req I T : Type} (se : StartElement)
    (kids : list Node)
    (em : Envelope Req I * T) : Envelope Req I * T :=
  if isEnvelopeField "Header" (StartName se) then
    setEnvelope_Header em
      (Some (Header_decoded (Envelope_Header (fst em)) se kids))
  else em.

(** The segments of the message of a fault, as the specification lists
    them. *)
Definition faultMessage (code text detail : string) (httpStatus : Z) : string :=
  ("soap: "
   ++ (if String.eqb code "" then "" else code ++ ": ")
   ++ text
   ++ (if String.eqb detail "" then "" else " (" ++ detail ++ ")")
   ++ (if Z.eqb httpStatus 0 then "" else " " ++ itoa httpStatus))%string.

(** ** soap.go: the configuration of a client *)

(** [type Config struct]; [TLS] stands for [tls.Config]. *)
Record Config (TLS : Type) : Type := mkConfig {
  Config_BasicAuth : option BasicAuth;
  Config_TLS : option TLS;
  Config_MaxIdleConnsPerHost : Z
}.
Arguments mkConfig {TLS}.
Arguments Config_BasicAuth {TLS}.
Arguments Config_TLS {TLS}.
Arguments Config_MaxIdleConnsPerHost {TLS}.

(** The settings of the [http.Transport] of a client's [http.Client]. *)
Record http_Transport (TLS : Type) : Type := mkTransport {
  TLSClientConfig : option TLS;
  MaxIdleConnsPerHost : Z
}.
Arguments mkTransport {TLS}.
Arguments TLSClientConfig {TLS}.
Arguments MaxIdleConnsPerHost {TLS}.

(** [func NewClient(url string, c Config) *Client]: the client, and the
    transport of its [httpClient], which [http_Do] of an [Env] stands
    for. *)
Definition NewClient {I TLS : Type} (url : string) (c : Config TLS)
    : Client I * http_Transport TLS :=
  (mkClient url (Config_BasicAuth c) [],
   mkTransport (Config_TLS c) (Config_MaxIdleConnsPerHost c)).

(** An environment that differs by its transport only. *)
Definition setDo {Req I Ctx : Type} (E : Env Req I Ctx)
    (do : Ctx -> http_Request -> error + http_Response) : Env Req I Ctx :=
  mkEnv (xml_Encode E) (xml_Flush E) (http_NewRequest E) do (xml_NewDecoder E).

(** ** Documents of faults and envelopes *)

(** The child that holds the field [name] of a fault, in the name
    space of the envelope; there is none for an empty field, the tags
    having [omitempty]. *)
Definition fieldElement (name : string) (v : string) : list Node :=
  if String.eqb v "" then [] else [envelopeElement name [CharData v]].

(** The fault element that holds the fields of [f]; [HTTPStatus] is no
    part of it.  The response of [TestClient_Fault] has this form. *)
Definition Fault_start : StartElement :=
  mkStart (mkName envelopeNS "Fault") [mkAttr (mkName "" "xmlns") envelopeNS].

Definition Fault_children (f : Fault) : list Node :=
  fieldElement "faultcode" (Code f)
  ++ fieldElement "faultstring" (Text f)
  ++ fieldElement "faultactor" (Actor f)
  ++ fieldElement "detail" (Detail f).

(** Children of an envelope among which none is a body. *)
Definition noBody (children : list Node) : bool :=
  forallb (fun n => match n with
                    | Element ce _ => negb (isEnvelopeField "Body" (StartName ce))
                    | _ => true
                    end) children.

(** Nodes that are not elements. *)
Definition noElement (children : list Node) : bool :=
  forallb (fun n => negb (isElement n)) children.

(** The fault that the decoder makes of a fault element. *)
Definition Fault_decoded (se : StartElement) (kids : list Node) : Fault :=
  mkFault (StartName se)
    (fieldText "faultcode" "" kids) (fieldText "faultstring" "" kids)
    (fieldText "faultactor" "" kids) (fieldText "detail" "" kids) 0.

(** The error of [Call] for a response that does not decode:
    [fmt.Errorf("soap: %s (%d)", resp.Status, resp.StatusCode)]. *)
Definition statusError (resp : http_Response) : error :=
  errorString ("soap: " ++ Status resp ++ " (" ++ itoa (StatusCode resp) ++ ")")%string.

(** What a child bound to the field of a [response] makes of it. *)
Definition response_assign (se : StartElement) (kids : list Node) (r : response)
    : response :=
  setAttr3 r (charData kids).

(** ** Further documents of the tests *)

Definition envelopeStart : StartElement :=
  mkStart (mkName envelopeNS "Envelope") [mkAttr (mkName "" "xmlns") envelopeNS].

Definition responseStart : StartElement :=
  mkStart (mkName "test:call" "Response") [mkAttr (mkName "" "xmlns") "test:call"].

(** The element of [response{Attr3: "value3"}]. *)
Definition responseElement : Node :=
  Element responseStart [testElement "attr3" [CharData "value3"]].

(** The response of [TestClient_Call]. *)
Definition callDocument : list Node :=
  [ envelopeElement "Envelope" [ envelopeElement "Body" [ responseElement ] ] ].

(** A response with two elements in its body. *)
Definition twoDocument : list Node :=
  [ envelopeElement "Envelope"
      [ envelopeElement "Body" [ responseElement; testElement "Response" [] ] ] ].

(** A response with a fault and a further element in its body. *)
Definition faultTwoDocument : list Node :=
  [ envelopeElement "Envelope"
      [ envelopeElement "Body"
          [ envelopeElement "Fault"
              [ envelopeElement "faultstring" [CharData "      fault text"] ];
            responseElement ] ] ].

(** A response that is a page of HTML, and one of plain text. *)
Definition htmlDocument : list Node :=
  [ Element (mkStart (mkName "" "html") []) [CharData "Bad Gateway"] ].

Definition textDocument : list Node := [ CharData "Bad Gateway" ].

(** A fault as a server of SOAP 1.1 sends it: the elements of the
    envelope carry a prefix, and the children of the fault are in no
    name space. *)
Definition plainFaultChildren : list Node :=
  [ Element (mkStart (mkName "" "faultcode") []) [CharData "soap:Server"];
    Element (mkStart (mkName "" "faultstring") [])
      [CharData "  Server exploded  "] ].

Definition plainFaultDocument : list Node :=
  [ Element (mkStart (mkName envelopeNS "Envelope")
               [mkAttr (mkName "xmlns" "soap") envelopeNS])
      [ Element (mkStart (mkName envelopeNS "Body") [])
          [ Element (mkStart (mkName envelopeNS "Fault") [])
              plainFaultChildren ] ] ].

(** The fault of the server of [TestClient_Fault]. *)
Definition serverFault : Fault :=
  mkFault Name_zero "" "      fault text" "" "" 0.

(** Environments in which the encoder, and the transport, fail. *)
Definition brokenEncoder : Env unit unit unit :=
  mkEnv (fun _ => (Some (errorString "xml: unsupported type: chan int"), ""))
    (fun _ => None) (fun _ _ => None)
    (fun _ _ => inr (mkResponse "200 OK" 200 (None, "<Envelope>")))
    (fun _ => reads emptyDocument).

Definition brokenTransport : Env unit unit unit :=
  mkEnv (fun _ => (None, "<Envelope/>")) (fun _ => None) (fun _ _ => None)
    (fun _ _ => inl (errorString "connection refused"))
    (fun _ => reads emptyDocument).

(** * Properties *)

Ltac fault_field_cases se :=
  unfold Fault_assign, isFaultField;
  destruct (String.eqb "faultcode" (Local (StartName se))) eqn:E1;
  destruct (String.eqb "faultstring" (Local (StartName se))) eqn:E2;
  destruct (String.eqb "faultactor" (Local (StartName se))) eqn:E3;
  destruct (String.eqb "detail" (Local (StartName se))) eqn:E4;
  try reflexivity;
  repeat match goal with
         | H : String.eqb _ _ = true |- _ => apply String.eqb_eq in H
         end;
  congruence.


(** ** The fault formatter *)

Lemma append_assoc (a b c : string) :
  ((a ++ b) ++ c)%string = (a ++ (b ++ c))%string.
Proof.
  induction a as [|x a IH]; simpl; [reflexivity|].
  now rewrite IH.
Qed.

Lemma append_empty_r (a : string) : (a ++ "")%string = a.
Proof.
  induction a as [|x a IH]; simpl; [reflexivity|].
  now rewrite IH.
Qed.

(** C6. [Fault.Error] is a function of the optional fault: the nil fault
    gives ["soap: <nil>"]; a fault gives ["soap: "], then its code and
    [": "] when the code is not empty, then its text, then its detail in
    brackets when the detail is not empty, then its HTTP status after a
    blank when the status is not 0.  The two literal cases of the
    specification are instances. *)
Theorem Fault_Error_format :
  Fault_Error None = "soap: <nil>"
  /\ (forall f : Fault,
        Fault_Error (Some f)
        = faultMessage (Code f) (Text f) (Detail f) (HTTPStatus f))
  /\ (forall n actor,
        Fault_Error (Some (mkFault n "code" "text" actor "" 500))
        = "soap: code: text 500")
  /\ (forall n actor,
        Fault_Error (Some (mkFault n "" "text" actor "detail" 0))
        = "soap: text (detail)").
Proof.
  split; [reflexivity|].
  split; [|split; intros; reflexivity].
  intros [n code text actor detail status].
  unfold Fault_Error, faultMessage, trimSpace_String; simpl.
  destruct (String.eqb code ""), (String.eqb detail ""), (Z.eqb status 0);
    simpl;
    repeat (progress (rewrite ?append_assoc, ?append_empty_r; simpl));
    reflexivity.
Qed.

(** ** The body decoder: guard and tokens passed over *)

Section BodyDecoder.

Context {Req T : Type} {UT : Unmarshaler T}.

Implicit Types (b : Body Req) (m : T) (d : Decoder).

Lemma Body_Loop_other fuel consumed b m t d :
  isOther t = true ->
  Body_Loop (S fuel) consumed b m (RToken t :: d)
  = Body_Loop fuel consumed b m d.
Proof.
  intros Ht. destruct t; simpl in *; try discriminate; reflexivity.
Qed.

Lemma Body_Loop_others j : forall fuel consumed b m d,
  forallb isOtherRead j = true ->
  Body_Loop (length j + fuel) consumed b m (j ++ d)
  = Body_Loop fuel consumed b m d.
Proof.
  induction j as [|r j IH]; intros fuel consumed b m d Hj; [reflexivity|].
  simpl in Hj. apply andb_prop in Hj as [Hr Hj].
  destruct r as [t| |e]; try discriminate.
  change (length (RToken t :: j) + fuel) with (S (length j + fuel)).
  change ((RToken t :: j) ++ d) with (RToken t :: (j ++ d)).
  rewrite Body_Loop_other by exact Hr. now apply IH.
Qed.

(** C4. With a nil [Content] the decoding returns the error of the guard
    and has read nothing: the decoder, the body and the caller's
    variable are as before.  With a [Content] that is not nil the guard
    is passed and the result is that of the loop. *)
Theorem Body_UnmarshalXML_content_guard b m d start :
  (Body_Content b = None ->
   Body_UnmarshalXML b m d start = Some (Some errContent, b, m, d))
  /\ (Body_Content b <> None ->
      Body_UnmarshalXML b m d start = Body_Loop (S (length d)) false b m d).
Proof.
  unfold Body_UnmarshalXML. split; intros H.
  - now rewrite H.
  - destruct (Body_Content b); [reflexivity|congruence].
Qed.

(** C10. A token of the body that is neither a start element nor an end
    element (character data, white space or not, a comment, a processing
    instruction, a directive) takes one iteration of the loop, which
    gives no error and leaves [consumed], the body and the caller's
    variable as they are; the decoding of a body is the same with and
    without such tokens in front. *)
Theorem Body_ignores_other_tokens b m t d :
  isOther t = true ->
  (forall fuel consumed,
     Body_Loop (S fuel) consumed b m (RToken t :: d)
     = Body_Loop fuel consumed b m d)
  /\ (forall j start,
        Body_Content b <> None ->
        forallb isOtherRead j = true ->
        Body_UnmarshalXML b m (j ++ d) start = Body_UnmarshalXML b m d start).
Proof.
  intros Ht. split.
  - intros. now apply Body_Loop_other.
  - intros j start Hc Hj. unfold Body_UnmarshalXML.
    destruct (Body_Content b); [|congruence].
    rewrite length_app.
    replace (S (length j + length d)) with (length j + S (length d)) by lia.
    now apply Body_Loop_others.
Qed.

End BodyDecoder.

(** ** Decoders only read *)

Lemma Skip_loop_length d : forall depth,
  length (snd (Skip_loop depth d)) <= length d.
Proof.
  induction d as [|r d IH]; intros depth; simpl; [lia|].
  destruct r as [t| |e]; simpl.
  - destruct t; try (specialize (IH depth); lia).
    + specialize (IH (S depth)); lia.
    + destruct depth; simpl; [lia|]. specialize (IH depth); lia.
  - specialize (IH depth); lia.
  - lia.
Qed.

Lemma Skip_length d err d' : Skip d = (err, d') -> length d' <= length d.
Proof.
  unfold Skip. intros H. pose proof (Skip_loop_length d 0) as L.
  rewrite H in L. exact L.
Qed.

Lemma Decoder_Token_length d t err d' :
  Decoder_Token d = (t, err, d') -> length d' <= length d.
Proof.
  destruct d as [|[x| |e] d]; simpl; intros H; inversion H; subst; simpl; lia.
Qed.

Lemma unmarshalPath_length {V : Type} (fields : list (fieldInfo V)) sv se d
    c err sv' d' :
  (forall fi, In fi fields -> consuming (fi_unmarshal fi)) ->
  unmarshalPath fields sv se d = Some (c, (err, sv', d')) ->
  length d' <= length d.
Proof.
  intros Hf. unfold unmarshalPath.
  destruct (find (fieldMatches se) fields) as [fi|] eqn:Hfind.
  - apply find_some in Hfind as [Hin _].
    destruct (fi_unmarshal fi sv se d) as [[[e v] d0]|] eqn:Hd; [|discriminate].
    intros H; inversion H; subst. eapply Hf; eauto.
  - intros H; inversion H; subst. lia.
Qed.

Lemma unmarshal_loop_length {V : Type} (fields : list (fieldInfo V)) saveData :
  (forall fi, In fi fields -> consuming (fi_unmarshal fi)) ->
  forall fuel sv data d err sv' data' d',
    unmarshal_loop fuel fields saveData sv data d = Some (err, sv', data', d') ->
    length d' <= length d.
Proof.
  intros Hf. induction fuel as [|fuel IH]; intros sv data d err sv' data' d';
    simpl; [discriminate|].
  destruct (Decoder_Token d) as [[t e] d1] eqn:Ht.
  pose proof (Decoder_Token_length _ _ _ _ Ht) as L1.
  destruct e as [e|].
  { destruct t as [[]|]; intros H; inversion H; subst; exact L1. }
  destruct t as [t|]; [|intros H; apply IH in H; lia].
  destruct t; try (intros H; apply IH in H; lia).
  - destruct (unmarshalPath fields sv se d1) as [[c [[e2 sv2] d2]]|] eqn:Hp;
      [|discriminate].
    pose proof (unmarshalPath_length _ _ _ _ _ _ _ _ Hf Hp) as L2.
    destruct e2 as [e2|].
    { destruct c; intros H; inversion H; subst; lia. }
    destruct c.
    + intros H; apply IH in H; lia.
    + destruct (Skip d2) as [[e3|] d3] eqn:Hs;
        pose proof (Skip_length _ _ _ Hs) as L3.
      * intros H; inversion H; subst; lia.
      * intros H; apply IH in H; lia.
  - intros H; inversion H; subst; exact L1.
Qed.

Lemma unmarshal_struct_consuming {V : Type} (ti : typeInfo V) :
  (forall fi, In fi (ti_fields ti) -> consuming (fi_unmarshal fi)) ->
  consuming (unmarshal_struct ti).
Proof.
  intros Hf v se d err v' d'. unfold unmarshal_struct.
  destruct (_ && _); [intros H; inversion H; subst; lia|].
  destruct (_ && _); [intros H; inversion H; subst; lia|].
  destruct (unmarshal_loop _ _ _ _ _ _) as [[[[e x] s] d0]|] eqn:Hl; [|discriminate].
  intros H; inversion H; subst.
  eapply unmarshal_loop_length; eauto.
Qed.

Lemma DecodeElement_string_consuming : consuming DecodeElement_string.
Proof.
  intros v se d err v' d'. unfold DecodeElement_string.
  destruct (unmarshal_loop _ _ _ _ _ _) as [[[[e x] s] d0]|] eqn:Hl; [|discriminate].
  assert (length d0 <= length d) as L.
  { eapply unmarshal_loop_length; [|exact Hl]. intros fi []. }
  destruct e; intros H; inversion H; subst; exact L.
Qed.

Lemma unmarshalInterface_consuming {V : Type} recv
    (U : V -> Decoder -> StartElement -> option (Outcome V)) :
  (forall v d se err v' d', U v d se = Some (err, v', d') -> length d' <= length d) ->
  consuming (unmarshalInterface recv U).
Proof.
  intros HU v se d err v' d'. unfold unmarshalInterface.
  destruct (U v d se) as [[[e x] d0]|] eqn:Hu; [|discriminate].
  apply HU in Hu.
  destruct e; [|destruct (popEOF d d0)]; intros H; inversion H; subst; exact Hu.
Qed.

Lemma trimSpace_UnmarshalXML_length ts d se err ts' d' :
  trimSpace_UnmarshalXML ts d se = Some (err, ts', d') -> length d' <= length d.
Proof.
  unfold trimSpace_UnmarshalXML.
  destruct (DecodeElement_string "" se d) as [[[e x] d0]|] eqn:Hd; [|discriminate].
  apply DecodeElement_string_consuming in Hd.
  destruct e; intros H; inversion H; subst; exact Hd.
Qed.

Lemma field_consuming {V F : Type} name xmlns (get : V -> F) set dec :
  consuming dec -> consuming (fi_unmarshal (field name xmlns get set dec)).
Proof.
  intros Hd v se d err v' d'. simpl.
  destruct (dec (get v) se d) as [[[e x] d0]|] eqn:H0; [|discriminate].
  apply Hd in H0. intros H; inversion H; subst; exact H0.
Qed.

Lemma DecodeElement_Fault_consuming : consuming DecodeElement_Fault.
Proof.
  apply unmarshal_struct_consuming. simpl.
  intros fi [<-|[<-|[<-|[<-|[]]]]]; apply field_consuming;
    apply unmarshalInterface_consuming; intros;
    eapply trimSpace_UnmarshalXML_length; eauto.
Qed.

(** ** Decoders return: the fuel of a decoding is enough *)

Lemma unmarshal_loop_returns {V : Type} (fields : list (fieldInfo V)) saveData :
  (forall fi, In fi fields ->
     consuming (fi_unmarshal fi) /\ returning (fi_unmarshal fi)) ->
  forall fuel sv data d,
    length d < fuel ->
    unmarshal_loop fuel fields saveData sv data d <> None.
Proof.
  intros Hf. induction fuel as [|fuel IH]; intros sv data d Hlen; [lia|].
  simpl. destruct d as [|[t| |e] d1]; simpl in *; try discriminate.
  - destruct t; try (apply IH; lia); try discriminate.
    unfold unmarshalPath.
    destruct (find (fieldMatches se) fields) as [fi|] eqn:Hfind.
    + apply find_some in Hfind as [Hin _].
      destruct (Hf fi Hin) as [Hc Hr].
      destruct (fi_unmarshal fi sv se d1) as [[[e2 sv2] d2]|] eqn:Hu;
        [|now apply Hr in Hu].
      apply Hc in Hu. destruct e2; [discriminate|]. apply IH. lia.
    + destruct (Skip d1) as [[e3|] d3] eqn:Hs; [discriminate|].
      apply Skip_length in Hs. apply IH. lia.
  - apply IH. lia.
Qed.

Lemma unmarshal_struct_returning {V : Type} (ti : typeInfo V) :
  (forall fi, In fi (ti_fields ti) ->
     consuming (fi_unmarshal fi) /\ returning (fi_unmarshal fi)) ->
  returning (unmarshal_struct ti).
Proof.
  intros Hf v se d. unfold unmarshal_struct.
  destruct (_ && _); [discriminate|].
  destruct (_ && _); [discriminate|].
  destruct (unmarshal_loop _ _ _ _ _ _) as [[[[e x] s] d0]|] eqn:Hl;
    [discriminate|].
  apply unmarshal_loop_returns in Hl; [contradiction|exact Hf|lia].
Qed.

Lemma DecodeElement_string_returning : returning DecodeElement_string.
Proof.
  intros v se d. unfold DecodeElement_string.
  destruct (unmarshal_loop _ _ _ _ _ _) as [[[[[e|] x] s] d0]|] eqn:Hl;
    try discriminate.
  apply unmarshal_loop_returns in Hl; [contradiction|intros fi []|lia].
Qed.

Lemma trimSpaceField_returning name get set :
  returning (fi_unmarshal (trimSpaceField name get set)).
Proof.
  intros f se d. unfold trimSpaceField, field. cbn [fi_unmarshal].
  unfold unmarshalInterface, trimSpace_UnmarshalXML.
  destruct (DecodeElement_string "" se d) as [[[[e|] x] d0]|] eqn:Hd.
  - discriminate.
  - destruct (popEOF d d0); discriminate.
  - now apply DecodeElement_string_returning in Hd.
Qed.

Lemma DecodeElement_Fault_returning : returning DecodeElement_Fault.
Proof.
  apply unmarshal_struct_returning. simpl.
  intros fi [<-|[<-|[<-|[<-|[]]]]]; split;
    try apply trimSpaceField_returning;
    apply field_consuming; apply unmarshalInterface_consuming; intros;
    eapply trimSpace_UnmarshalXML_length; eauto.
Qed.

(** ** The body decoder: one child, no more *)

Section BodyChildren.

Context {Req T : Type} {UT : Unmarshaler T}.

Implicit Types (b : Body Req) (m : T) (d : Decoder).

Lemma DecodeElement_length (v : option (interface Req)) m se d err m' d' :
  DecodeElement v m se d = Some (err, m', d') -> length d' <= length d.
Proof.
  unfold DecodeElement. destruct v as [[r| |]|].
  - intros H; inversion H; subst; lia.
  - destruct (decodeElement m se d) as [[[e x] n]|]; [|discriminate].
    intros H; inversion H; subst. rewrite length_skipn. lia.
  - destruct (Skip d) as [e d0] eqn:Hs. apply Skip_length in Hs.
    intros H; inversion H; subst; exact Hs.
  - intros H; inversion H; subst; lia.
Qed.

Lemma Body_child_length b m se d err b' m' d' :
  Body_child b m se d = Some (err, b', m', d') -> length d' <= length d.
Proof.
  unfold Body_child. destruct (isFaultName (StartName se)).
  - destruct (DecodeElement_Fault Fault_zero se d) as [[[e f] d0]|] eqn:Hf;
      [|discriminate].
    apply DecodeElement_Fault_consuming in Hf.
    intros H; inversion H; subst; exact Hf.
  - destruct (DecodeElement (Body_Content b) m se d) as [[[e x] d0]|] eqn:Hc;
      [|discriminate].
    apply DecodeElement_length in Hc.
    intros H; inversion H; subst; exact Hc.
Qed.

Lemma Body_Loop_first fuel b m se d :
  Body_Loop (S fuel) false b m (RToken (TStartElement se) :: d)
  = match Body_child b m se d with
    | None => None
    | Some (Some err, b', m', d2) => Some (Some err, b', m', d2)
    | Some (None, b', m', d2) => Body_Loop fuel true b' m' d2
    end.
Proof. reflexivity. Qed.

Lemma Body_Loop_second fuel b m se d :
  Body_Loop (S fuel) true b m (RToken (TStartElement se) :: d)
  = Some (Some errMultiple, b, m, d).
Proof. reflexivity. Qed.

Lemma Body_Loop_end fuel consumed b m n d :
  Body_Loop (S fuel) consumed b m (RToken (TEndElement n) :: d)
  = Some (None, b, m, d).
Proof. reflexivity. Qed.

Lemma Body_second_child b m start j1 se1 d1 err1 b1 m1 d2 j2 se2 rest :
  Body_Content b <> None ->
  forallb isOtherRead j1 = true ->
  forallb isOtherRead j2 = true ->
  Body_child b m se1 d1 = Some (err1, b1, m1, d2) ->
  (err1 = None -> d2 = j2 ++ RToken (TStartElement se2) :: rest) ->
  Body_UnmarshalXML b m (j1 ++ RToken (TStartElement se1) :: d1) start
  = Some (match err1 with
          | Some e => (Some e, b1, m1, d2)
          | None => (Some errMultiple, b1, m1, rest)
          end).
Proof.
  intros Hc Hj1 Hj2 Hchild Hd2.
  unfold Body_UnmarshalXML. destruct (Body_Content b) eqn:Hb; [clear Hc|congruence].
  rewrite length_app; simpl length.
  replace (S (length j1 + S (length d1))) with (length j1 + S (S (length d1))) by lia.
  rewrite (Body_Loop_others j1) by exact Hj1.
  rewrite Body_Loop_first, Hchild.
  destruct err1 as [e|]; [reflexivity|].
  specialize (Hd2 eq_refl). subst d2.
  apply Body_child_length in Hchild.
  rewrite length_app in Hchild; simpl in Hchild.
  replace (S (length d1)) with (length j2 + S (length d1 - length j2)) by lia.
  rewrite (Body_Loop_others j2) by exact Hj2.
  apply Body_Loop_second.
Qed.




End BodyChildren.

(** ** Decoding over document trees *)

Lemma Node_forest_ind (P : Node -> Prop) :
  (forall start children, Forall P children -> P (Element start children)) ->
  (forall s, P (CharData s)) ->
  (forall s, P (Comment s)) ->
  (forall target inst, P (ProcInst target inst)) ->
  (forall s, P (Directive s)) ->
  forall n, P n.
Proof.
  intros HE HC HM HP HD. fix IH 1.
  intros [start children|s|s|t i|s];
    [|apply HC|apply HM|apply HP|apply HD].
  apply HE. induction children as [|c cs IHcs]; constructor; [apply IH|exact IHcs].
Qed.

Lemma reads_cons n ns : reads (n :: ns) = map RToken (tokens n) ++ reads ns.
Proof. unfold reads. simpl. now rewrite map_app. Qed.

Lemma reads_app ns1 ns2 : reads (ns1 ++ ns2) = reads ns1 ++ reads ns2.
Proof. unfold reads. now rewrite flat_map_app, map_app. Qed.

Lemma reads_element se kids ns :
  reads (Element se kids :: ns)
  = RToken (TStartElement se) :: content se kids ++ reads ns.
Proof.
  rewrite reads_cons. unfold content, reads. simpl.
  now rewrite map_app.
Qed.

Lemma content_app se kids tail :
  content se kids ++ tail
  = reads kids ++ RToken (TEndElement (StartName se)) :: tail.
Proof. unfold content. now rewrite <- app_assoc. Qed.

Lemma Skip_loop_reads ns : forall depth rest,
  Skip_loop depth (reads ns ++ rest) = Skip_loop depth rest.
Proof.
  assert (forall n depth rest,
            Skip_loop depth (map RToken (tokens n) ++ rest)
            = Skip_loop depth rest) as Hnode.
  { induction n as [se kids IH|s|s|t i|s] using Node_forest_ind;
      intros depth rest; try reflexivity.
    simpl. rewrite map_app, <- app_assoc. simpl.
    change (map RToken (flat_map tokens kids)) with (reads kids).
    assert (forall depth rest,
              Skip_loop depth (reads kids ++ rest) = Skip_loop depth rest) as Hk.
    { clear depth rest. induction IH as [|k ks Hk _ IHks]; intros depth rest;
        [reflexivity|].
      rewrite reads_cons, <- app_assoc, Hk. apply IHks. }
    rewrite Hk. reflexivity. }
  induction ns as [|n ns IH]; intros depth rest; [reflexivity|].
  rewrite reads_cons, <- app_assoc, Hnode. apply IH.
Qed.

Lemma Skip_content se kids tail : Skip (content se kids ++ tail) = (None, tail).
Proof.
  unfold Skip. rewrite content_app, Skip_loop_reads. reflexivity.
Qed.

Lemma reads_balanced ns :
  length (filter isEnd (reads ns)) = length (filter isStart (reads ns)).
Proof.
  assert (forall n,
            length (filter isEnd (map RToken (tokens n)))
            = length (filter isStart (map RToken (tokens n)))) as Hnode.
  { induction n as [se kids IH|s|s|t i|s] using Node_forest_ind;
      try reflexivity.
    simpl. rewrite map_app, !filter_app, !length_app. simpl.
    change (map RToken (flat_map tokens kids)) with (reads kids).
    assert (length (filter isEnd (reads kids))
            = length (filter isStart (reads kids))) as Hk.
    { induction IH as [|k ks Hk _ IHks]; [reflexivity|].
      rewrite reads_cons, !filter_app, !length_app. lia. }
    lia. }
  induction ns as [|n ns IH]; [reflexivity|].
  rewrite reads_cons, !filter_app, !length_app, Hnode. lia.
Qed.

Lemma popEOF_content se kids tail : popEOF (content se kids ++ tail) tail = true.
Proof.
  unfold popEOF. rewrite length_app.
  replace (length (content se kids) + length tail - length tail)
    with (length (content se kids) + 0) by lia.
  rewrite firstn_app_2, firstn_O, app_nil_r.
  unfold content. rewrite !filter_app, !length_app, reads_balanced. simpl.
  apply Nat.eqb_eq. lia.
Qed.

Lemma length_reads ns : length ns <= length (reads ns).
Proof.
  induction ns as [|n ns IH]; [simpl; lia|].
  rewrite reads_cons, length_app. simpl length.
  assert (1 <= length (map RToken (tokens n))).
  { destruct n; simpl; lia. }
  lia.
Qed.

Lemma unmarshal_loop_prefix {V : Type} (P : V -> Prop)
    (fields : list (fieldInfo V)) saveData upd children :
  (forall se kids fi,
     In (Element se kids) children ->
     find (fieldMatches se) fields = Some fi ->
     forall sv rest,
       P sv ->
       fi_unmarshal fi sv se (content se kids ++ rest)
       = Some (None, upd se kids sv, rest)
       /\ P (upd se kids sv)) ->
  forall fuel sv data d,
    P sv ->
    unmarshal_loop (length children + fuel) fields saveData sv data
      (reads children ++ d)
    = unmarshal_loop fuel fields saveData
        (applyChildren fields upd children sv)
        (if saveData then (data ++ charData children)%string else data) d
    /\ P (applyChildren fields upd children sv).
Proof.
  induction children as [|c cs IH]; intros Hf fuel sv data d HP.
  - simpl. split; [|exact HP].
    destruct saveData; [now rewrite append_empty_r|reflexivity].
  - assert (forall se kids fi,
              In (Element se kids) cs ->
              find (fieldMatches se) fields = Some fi ->
              forall sv rest,
                P sv ->
                fi_unmarshal fi sv se (content se kids ++ rest)
                = Some (None, upd se kids sv, rest)
                /\ P (upd se kids sv)) as Hf'.
    { intros se kids fi Hin. apply Hf. now right. }
    specialize (IH Hf' fuel).
    change (length (c :: cs) + fuel) with (S (length cs + fuel)).
    destruct c as [se kids|s|s|t i|s].
    + rewrite reads_element. cbn [app unmarshal_loop Decoder_Token].
      rewrite <- app_assoc. unfold unmarshalPath. simpl applyChildren.
      destruct (find (fieldMatches se) fields) as [fi|] eqn:Hfind.
      * destruct (Hf se kids fi (or_introl eq_refl) Hfind sv
                    (reads cs ++ d) HP) as [Hu HP'].
        rewrite Hu. now apply IH.
      * rewrite Skip_content. now apply IH.
    + rewrite reads_cons. cbn [tokens map app unmarshal_loop Decoder_Token].
      destruct (IH sv (if saveData then (data ++ s)%string else data) d HP)
        as [-> HP'].
      split; [|exact HP']. simpl. destruct saveData; [|reflexivity].
      now rewrite append_assoc.
    + rewrite reads_cons. cbn [tokens map app unmarshal_loop Decoder_Token].
      now apply IH.
    + rewrite reads_cons. cbn [tokens map app unmarshal_loop Decoder_Token].
      now apply IH.
    + rewrite reads_cons. cbn [tokens map app unmarshal_loop Decoder_Token].
      now apply IH.
Qed.

Lemma unmarshal_loop_children {V : Type} (fields : list (fieldInfo V))
    saveData upd n tail children :
  (forall se kids fi,
     In (Element se kids) children ->
     find (fieldMatches se) fields = Some fi ->
     forall sv rest,
       fi_unmarshal fi sv se (content se kids ++ rest)
       = Some (None, upd se kids sv, rest)) ->
  forall fuel sv data,
    length children < fuel ->
    unmarshal_loop fuel fields saveData sv data
      (reads children ++ RToken (TEndElement n) :: tail)
    = Some (None, applyChildren fields upd children sv,
            (if saveData then (data ++ charData children)%string else data),
            tail).
Proof.
  intros Hf fuel sv data Hfuel.
  replace fuel with (length children + S (fuel - length children - 1)) by lia.
  destruct (unmarshal_loop_prefix (fun _ => True) fields saveData upd children)
    with (fuel := S (fuel - length children - 1)) (sv := sv) (data := data)
         (d := RToken (TEndElement n) :: tail) as [-> _];
    [|exact I|reflexivity].
  intros se kids fi Hin Hfind sv0 rest _. split; [|exact I].
  now apply Hf.
Qed.

(** ** Decoding a Fault *)

Lemma DecodeElement_string_content v se kids tail :
  DecodeElement_string v se (content se kids ++ tail)
  = Some (None, charData kids, tail).
Proof.
  unfold DecodeElement_string. rewrite content_app.
  rewrite (unmarshal_loop_children [] true (fun _ _ x => x)).
  - reflexivity.
  - intros se' kids' fi _ Hfind. discriminate.
  - rewrite length_app. pose proof (length_reads kids). lia.
Qed.

Lemma trimSpaceField_content name get set f se kids rest :
  fi_unmarshal (trimSpaceField name get set) f se (content se kids ++ rest)
  = Some (None, set f (TrimSpace (charData kids)), rest).
Proof.
  unfold trimSpaceField, field. cbn [fi_unmarshal].
  unfold unmarshalInterface, trimSpace_UnmarshalXML.
  now rewrite DecodeElement_string_content, popEOF_content.
Qed.

Lemma fieldMatches_trimSpaceField se name get set :
  fieldMatches se (trimSpaceField name get set)
  = String.eqb name (Local (StartName se)).
Proof. reflexivity. Qed.

Lemma Fault_fields_content se kids fi :
  find (fieldMatches se) (ti_fields Fault_typeInfo) = Some fi ->
  forall sv rest,
    fi_unmarshal fi sv se (content se kids ++ rest)
    = Some (None, Fault_assign se kids sv, rest).
Proof.
  cbn [ti_fields Fault_typeInfo find].
  rewrite !fieldMatches_trimSpaceField. unfold Fault_assign.
  destruct (String.eqb "faultcode" (Local (StartName se)));
    [intros H; inversion H; intros; apply trimSpaceField_content|].
  destruct (String.eqb "faultstring" (Local (StartName se)));
    [intros H; inversion H; intros; apply trimSpaceField_content|].
  destruct (String.eqb "faultactor" (Local (StartName se)));
    [intros H; inversion H; intros; apply trimSpaceField_content|].
  destruct (String.eqb "detail" (Local (StartName se)));
    [intros H; inversion H; intros; apply trimSpaceField_content|].
  discriminate.
Qed.

Lemma isFaultName_spec n :
  isFaultName n = true -> Space n = envelopeNS /\ Local n = "Fault".
Proof.
  unfold isFaultName. intros H. apply andb_prop in H as [H1 H2].
  apply String.eqb_eq in H1, H2. auto.
Qed.

Lemma DecodeElement_Fault_content f se kids tail :
  isFaultName (StartName se) = true ->
  DecodeElement_Fault f se (content se kids ++ tail)
  = Some (None,
          applyChildren (ti_fields Fault_typeInfo) Fault_assign kids
            (setFault_XMLName f (StartName se)),
          tail).
Proof.
  intros Hn. apply isFaultName_spec in Hn as [Hs Hl].
  unfold DecodeElement_Fault, unmarshal_struct.
  cbn [ti_name ti_xmlns ti_setXMLName ti_fields Fault_typeInfo].
  rewrite Hs, Hl.
  change (negb (String.eqb "Fault" "") && negb (String.eqb "Fault" "Fault"))
    with false.
  change (negb (String.eqb envelopeNS "") && negb (String.eqb envelopeNS envelopeNS))
    with false.
  cbv iota. rewrite content_app.
  rewrite (unmarshal_loop_children _ false Fault_assign).
  - reflexivity.
  - intros se' kids' fi _ Hfind. now apply Fault_fields_content.
  - rewrite length_app. pose proof (length_reads kids). lia.
Qed.

Lemma Fault_applyChildren_element se ks rest f :
  applyChildren (ti_fields Fault_typeInfo) Fault_assign (Element se ks :: rest) f
  = applyChildren (ti_fields Fault_typeInfo) Fault_assign rest
      (Fault_assign se ks f).
Proof.
  cbn [applyChildren ti_fields Fault_typeInfo find].
  rewrite !fieldMatches_trimSpaceField. unfold Fault_assign.
  destruct (String.eqb "faultcode" (Local (StartName se))); [reflexivity|].
  destruct (String.eqb "faultstring" (Local (StartName se))); [reflexivity|].
  destruct (String.eqb "faultactor" (Local (StartName se))); [reflexivity|].
  destruct (String.eqb "detail" (Local (StartName se))); reflexivity.
Qed.

Lemma Fault_fields_of_children kids : forall f,
  let f' := applyChildren (ti_fields Fault_typeInfo) Fault_assign kids f in
  Code f' = fieldText "faultcode" (Code f) kids
  /\ Text f' = fieldText "faultstring" (Text f) kids
  /\ Actor f' = fieldText "faultactor" (Actor f) kids
  /\ Detail f' = fieldText "detail" (Detail f) kids
  /\ HTTPStatus f' = HTTPStatus f.
Proof.
  induction kids as [|c cs IH]; intros f; [cbn; auto|].
  destruct c as [se ks|s|s|t i|s]; try apply IH.
  cbv zeta. rewrite Fault_applyChildren_element.
  destruct (IH (Fault_assign se ks f)) as (HC & HT & HA & HD & HS).
  rewrite HC, HT, HA, HD, HS. cbn [fieldText].
  repeat split.
  - replace (Code (Fault_assign se ks f))
      with (if isFaultField "faultcode" (Element se ks)
            then TrimSpace (charData ks) else Code f).
    + now destruct (isFaultField "faultcode" (Element se ks)).
    + fault_field_cases se.
  - replace (Text (Fault_assign se ks f))
      with (if isFaultField "faultstring" (Element se ks)
            then TrimSpace (charData ks) else Text f).
    + now destruct (isFaultField "faultstring" (Element se ks)).
    + fault_field_cases se.
  - replace (Actor (Fault_assign se ks f))
      with (if isFaultField "faultactor" (Element se ks)
            then TrimSpace (charData ks) else Actor f).
    + now destruct (isFaultField "faultactor" (Element se ks)).
    + fault_field_cases se.
  - replace (Detail (Fault_assign se ks f))
      with (if isFaultField "detail" (Element se ks)
            then TrimSpace (charData ks) else Detail f).
    + now destruct (isFaultField "detail" (Element se ks)).
    + fault_field_cases se.
  - fault_field_cases se.
Qed.

(** ** strings.TrimSpace removes the white space around a string *)

Lemma spaces_concat a b : spaces a -> spaces b -> spaces (a ++ b).
Proof.
  induction 1 as [|r s Hr Hs IH]; intros Hb; [exact Hb|].
  rewrite <- app_assoc. constructor; auto.
Qed.

Lemma spaces_rune r : isSpaceRune r = true -> spaces r.
Proof.
  intros H. rewrite <- (app_nil_r r). constructor; [exact H|constructor].
Qed.

(** A white-space rune at the front of [s], read forwards or backwards. *)
Lemma spaceWidth_some (back : bool) s w :
  spaceWidth back s = S w ->
  exists r, isSpaceRune r = true
            /\ s = (if back then rev r else r) ++ skipn (S w) s.
Proof.
  unfold spaceWidth.
  destruct s as [|c1 [|c2 [|c3 s]]]; try discriminate.
  - destruct (asciiSpace c1) eqn:H1; [|discriminate].
    intros H; inversion H; subst. exists [c1]. now destruct back.
  - destruct (asciiSpace c1) eqn:H1.
    { intros H; inversion H; subst. exists [c1]. now destruct back. }
    destruct back.
    + destruct (space2 c2 c1) eqn:H2; [|discriminate].
      intros H; inversion H; subst. exists [c2; c1]. auto.
    + destruct (space2 c1 c2) eqn:H2; [|discriminate].
      intros H; inversion H; subst. exists [c1; c2]. auto.
  - destruct (asciiSpace c1) eqn:H1.
    { intros H; inversion H; subst. exists [c1]. now destruct back. }
    destruct back.
    + destruct (space2 c2 c1) eqn:H2.
      { intros H; inversion H; subst. exists [c2; c1]. auto. }
      destruct (space3 c3 c2 c1) eqn:H3; [|discriminate].
      intros H; inversion H; subst. exists [c3; c2; c1]. auto.
    + destruct (space2 c1 c2) eqn:H2.
      { intros H; inversion H; subst. exists [c1; c2]. auto. }
      destruct (space3 c1 c2 c3) eqn:H3; [|discriminate].
      intros H; inversion H; subst. exists [c1; c2; c3]. auto.
Qed.

Lemma spaceWidth_none (back : bool) s r y :
  spaceWidth back s = 0 ->
  isSpaceRune r = true ->
  s <> (if back then rev r else r) ++ y.
Proof.
  intros Hw Hr Hs.
  destruct r as [|c1 [|c2 [|c3 [|c4 r]]]]; try discriminate; simpl in Hr.
  - assert (s = c1 :: y) as -> by (destruct back; exact Hs).
    unfold spaceWidth in Hw. now rewrite Hr in Hw.
  - destruct back; simpl in Hs; subst s; unfold spaceWidth in Hw;
      rewrite Hr in Hw; destruct (asciiSpace _); discriminate.
  - destruct back; simpl in Hs; subst s; unfold spaceWidth in Hw;
      rewrite Hr in Hw; destruct (asciiSpace _); try discriminate;
      destruct (space2 _ _); discriminate.
Qed.

Lemma trimRunes_spec (back : bool) fuel : forall s,
  length s <= fuel ->
  exists l, spaces l
            /\ s = (if back then rev l else l) ++ trimRunes back fuel s
            /\ spaceWidth back (trimRunes back fuel s) = 0.
Proof.
  induction fuel as [|fuel IH]; intros s Hlen.
  - destruct s; [|simpl in Hlen; lia].
    exists []. simpl. destruct back; repeat split; constructor.
  - cbn [trimRunes]. destruct (spaceWidth back s) as [|w] eqn:Hw.
    + exists []. destruct back; repeat split; auto; constructor.
    + destruct (spaceWidth_some _ _ _ Hw) as (r & Hr & Hs).
      assert (length (skipn (S w) s) <= fuel) as Hlen'.
      { rewrite length_skipn. lia. }
      destruct (IH _ Hlen') as (l & Hl & Hs' & Hw').
      destruct back.
      * exists (l ++ r). split; [apply spaces_concat; auto using spaces_rune|].
        split; [|exact Hw'].
        rewrite rev_app_distr, <- app_assoc, <- Hs'. exact Hs.
      * exists (r ++ l). split; [apply spaces_concat; auto using spaces_rune|].
        split; [|exact Hw'].
        rewrite <- app_assoc, <- Hs'. exact Hs.
Qed.

Lemma TrimSpace_trimmed s : trimmed s (TrimSpace s).
Proof.
  unfold trimmed, TrimSpace, TrimLeft, TrimRight.
  rewrite list_ascii_of_string_of_list_ascii.
  set (s0 := list_ascii_of_string s).
  destruct (trimRunes_spec false (length s0) s0 (le_n _)) as (l & Hl & Hs0 & Hw0).
  set (t1 := trimRunes false (length s0) s0) in *.
  destruct (trimRunes_spec true (length (rev t1)) (rev t1) (le_n _))
    as (r & Hr & Ht1 & Hw1).
  rewrite length_rev in *.
  set (t2 := trimRunes true (length t1) (rev t1)) in *.
  assert (t1 = rev t2 ++ r) as Ht.
  { rewrite <- (rev_involutive t1), Ht1, rev_app_distr, rev_involutive.
    reflexivity. }
  exists l, r. repeat split; auto.
  - rewrite <- Ht. exact Hs0.
  - intros x y Hx Hxy.
    apply (spaceWidth_none false t1 x (y ++ r) Hw0 Hx).
    rewrite Ht, Hxy, <- app_assoc. reflexivity.
  - intros x y Hx Hxy.
    apply (spaceWidth_none true t2 x (rev y) Hw1 Hx).
    rewrite <- (rev_involutive t2), Hxy, rev_app_distr. reflexivity.
Qed.

Lemma fieldText_unbound name post : forall v,
  forallb (fun n => negb (isFaultField name n)) post = true ->
  fieldText name v post = v.
Proof.
  induction post as [|c cs IH]; intros v H; [reflexivity|].
  simpl in H. apply andb_prop in H as [Hc Hcs].
  destruct c as [se ks|s|s|t i|s]; cbn [fieldText]; try now apply IH.
  apply negb_true_iff in Hc. rewrite Hc. now apply IH.
Qed.

Lemma fieldText_last name pre ce ks post : forall v,
  isFaultField name (Element ce ks) = true ->
  forallb (fun n => negb (isFaultField name n)) post = true ->
  fieldText name v (pre ++ Element ce ks :: post) = TrimSpace (charData ks).
Proof.
  induction pre as [|c cs IH]; intros v Hc Hpost.
  - cbn [app fieldText]. rewrite Hc. now apply fieldText_unbound.
  - destruct c as [se ks'|s|s|t i|s]; cbn [app fieldText]; try now apply IH.
    destruct (isFaultField name (Element se ks')); now apply IH.
Qed.

(** C7. The decoding of a fault element gives each string field of the
    [Fault] from the child elements bound to it, those of the local name
    of its tag in any name space: the field is the character data of the
    last such child without its leading and trailing white space (and
    stays empty without such a child).  A
    response of status 500 whose fault string is ["      fault text"]
    makes [Call] return the error ["soap: fault text 500"]. *)
Theorem Fault_fields_trimmed :
  (forall se kids tail,
     isFaultName (StartName se) = true ->
     exists f,
       DecodeElement_Fault Fault_zero se (content se kids ++ tail)
       = Some (None, f, tail)
       /\ forall name v,
            Fault_field name f = Some v ->
            v = fieldText name "" kids
            /\ forall pre ce ks post,
                 kids = pre ++ Element ce ks :: post ->
                 isFaultField name (Element ce ks) = true ->
                 forallb (fun n => negb (isFaultField name n)) post = true ->
                 v = TrimSpace (charData ks) /\ trimmed (charData ks) v)
  /\ (exists f,
        Call (UT := none_Unmarshaler)
          (testServer "500 Internal Server Error" 500 "<Envelope>"
             (reads faultDocument))
          testClient tt "" None None tt
        = Some (Some (FaultError f), tt)
        /\ Text f = "fault text"
        /\ Error (FaultError f) = "soap: fault text 500").
Proof.
  split.
  - intros se kids tail Hn.
    eexists. split; [now apply DecodeElement_Fault_content|].
    intros name v Hv.
    destruct (Fault_fields_of_children kids
                (setFault_XMLName Fault_zero (StartName se)))
      as (HC & HT & HA & HD & _).
    assert (v = fieldText name "" kids) as Hfield.
    { unfold Fault_field in Hv.
      destruct (String.eqb name "faultcode") eqn:E1;
        [apply String.eqb_eq in E1; subst name; inversion Hv; exact HC|].
      destruct (String.eqb name "faultstring") eqn:E2;
        [apply String.eqb_eq in E2; subst name; inversion Hv; exact HT|].
      destruct (String.eqb name "faultactor") eqn:E3;
        [apply String.eqb_eq in E3; subst name; inversion Hv; exact HA|].
      destruct (String.eqb name "detail") eqn:E4;
        [apply String.eqb_eq in E4; subst name; inversion Hv; exact HD|].
      discriminate. }
    split; [exact Hfield|].
    intros pre ce ks post -> Hc Hpost.
    rewrite (fieldText_last name pre ce ks post "" Hc Hpost) in Hfield.
    subst v. split; [reflexivity|apply TrimSpace_trimmed].
  - eexists. split; [vm_compute; reflexivity|]. split; reflexivity.
Qed.

(** ** What decoding preserves *)

Lemma unmarshal_loop_invariant {V : Type} (P : V -> Prop)
    (fields : list (fieldInfo V)) saveData :
  (forall fi, In fi fields ->
     forall sv se d err sv' d',
       P sv -> fi_unmarshal fi sv se d = Some (err, sv', d') -> P sv') ->
  forall fuel sv data d err sv' data' d',
    P sv ->
    unmarshal_loop fuel fields saveData sv data d = Some (err, sv', data', d') ->
    P sv'.
Proof.
  intros Hf. induction fuel as [|fuel IH];
    intros sv data d err sv' data' d' HP; simpl; [discriminate|].
  destruct (Decoder_Token d) as [[t e] d1].
  destruct e as [e|].
  { destruct t as [[]|]; intros H; inversion H; subst; exact HP. }
  destruct t as [t|]; [|intros H; eapply IH; eauto].
  destruct t; try (intros H; eapply IH; eauto; fail).
  - unfold unmarshalPath.
    destruct (find (fieldMatches se) fields) as [fi|] eqn:Hfind.
    + apply find_some in Hfind as [Hin _].
      destruct (fi_unmarshal fi sv se d1) as [[[e2 sv2] d2]|] eqn:Hu;
        [|discriminate].
      assert (P sv2) as HP2 by (eapply Hf; eauto).
      destruct e2; [intros H; inversion H; subst; exact HP2|].
      intros H; eapply IH; eauto.
    + destruct (Skip d1) as [[e3|] d3].
      * intros H; inversion H; subst; exact HP.
      * intros H; eapply IH; eauto.
  - intros H; inversion H; subst; exact HP.
Qed.

Lemma unmarshal_struct_invariant {V : Type} (P : V -> Prop) (ti : typeInfo V) :
  (forall v n, P v -> P (ti_setXMLName ti v n)) ->
  (forall fi, In fi (ti_fields ti) ->
     forall sv se d err sv' d',
       P sv -> fi_unmarshal fi sv se d = Some (err, sv', d') -> P sv') ->
  forall v se d err v' d',
    P v -> unmarshal_struct ti v se d = Some (err, v', d') -> P v'.
Proof.
  intros Hn Hf v se d err v' d' HP. unfold unmarshal_struct.
  destruct (_ && _); [intros H; inversion H; subst; exact HP|].
  destruct (_ && _); [intros H; inversion H; subst; exact HP|].
  destruct (unmarshal_loop _ _ _ _ _ _) as [[[[e x] s] d0]|] eqn:Hl; [|discriminate].
  intros H; inversion H; subst.
  eapply unmarshal_loop_invariant; [exact Hf| |exact Hl]. now apply Hn.
Qed.

Lemma field_invariant {V F : Type} (P : V -> Prop) name xmlns (get : V -> F)
    set dec :
  (forall sv se d err f d',
     P sv -> dec (get sv) se d = Some (err, f, d') -> P (set sv f)) ->
  forall sv se d err sv' d',
    P sv ->
    fi_unmarshal (field name xmlns get set dec) sv se d = Some (err, sv', d') ->
    P sv'.
Proof.
  intros Hd sv se d err sv' d' HP. simpl.
  destruct (dec (get sv) se d) as [[[e x] d0]|] eqn:H0; [|discriminate].
  intros H; inversion H; subst. eapply Hd; eauto.
Qed.

(** The decoder does not write [HTTPStatus]. *)
Lemma DecodeElement_Fault_HTTPStatus f0 se d err f d' :
  DecodeElement_Fault f0 se d = Some (err, f, d') ->
  HTTPStatus f = HTTPStatus f0.
Proof.
  apply (unmarshal_struct_invariant (fun f => HTTPStatus f = HTTPStatus f0));
    [intros v n Hv; exact Hv| |reflexivity].
  simpl. intros fi [<-|[<-|[<-|[<-|[]]]]]; apply field_invariant;
    intros sv se' d0 err0 x d1 HP _; exact HP.
Qed.

Section Preserved.

Context {Req I T : Type} {UT : Unmarshaler T}.

Variable P : Body Req -> Prop.

Hypothesis Body_child_preserves :
  forall (b : Body Req) (m : T) se d err b' m' d',
    P b -> Body_child b m se d = Some (err, b', m', d') -> P b'.

Lemma Body_Loop_invariant fuel : forall consumed (b : Body Req) (m : T) d err b' m' d',
  P b -> Body_Loop fuel consumed b m d = Some (err, b', m', d') -> P b'.
Proof.
  induction fuel as [|fuel IH]; intros consumed b m d err b' m' d' HP; simpl;
    [discriminate|].
  destruct d as [|[t| |e] d0]; simpl;
    try (intros H; inversion H; subst; exact HP).
  destruct t; try (intros H; eapply IH; eauto; fail).
  - destruct consumed; [intros H; inversion H; subst; exact HP|].
    destruct (Body_child b m se d0) as [[[[e b1] m1] d2]|] eqn:Hch;
      [|discriminate].
    assert (P b1) as HP1 by (eapply Body_child_preserves; eauto).
    destruct e; [intros H; inversion H; subst; exact HP1|].
    intros H; eapply IH; eauto.
  - intros H; inversion H; subst; exact HP.
Qed.

Lemma Body_UnmarshalXML_invariant (b : Body Req) (m : T) d start err b' m' d' :
  P b -> Body_UnmarshalXML b m d start = Some (err, b', m', d') -> P b'.
Proof.
  intros HP. unfold Body_UnmarshalXML. destruct (Body_Content b).
  - now apply Body_Loop_invariant.
  - intros H; inversion H; subst; exact HP.
Qed.

Lemma Unmarshal_invariant d (env : Envelope Req I) (m : T) err env' m' :
  P (Envelope_Body env) ->
  Unmarshal d env m = Some (err, env', m') ->
  P (Envelope_Body env').
Proof.
  intros HP. unfold Unmarshal.
  destruct (findStart d) as [[[e|] [se|]] d1];
    try (intros H; inversion H; subst; exact HP).
  destruct (unmarshal_struct Envelope_typeInfo (env, m) se d1)
    as [[[e em] d2]|] eqn:Hu; [|discriminate].
  intros H; inversion H; subst.
  revert Hu.
  apply (unmarshal_struct_invariant
           (fun em : Envelope Req I * T => P (Envelope_Body (fst em))));
    [intros v n Hv; exact Hv| |exact HP].
  simpl. intros fi [<-|[<-|[]]]; apply field_invariant.
  - intros sv se' d0 err0 h d3 Hv _. exact Hv.
  - intros sv se' d0 err0 bm d3 Hv. unfold Body_unmarshal, unmarshalInterface.
    cbn [fst snd].
    destruct (Body_UnmarshalXML (Envelope_Body (fst sv)) (snd sv) d0 se')
      as [[[[e1 b1] m1] d4]|] eqn:Hb; [|discriminate].
    apply Body_UnmarshalXML_invariant in Hb; [|exact Hv].
    destruct e1; [|destruct (popEOF d0 d4)]; intros H1; inversion H1; subst;
      exact Hb.
Qed.

End Preserved.

(** ** The body holds a fault or a content *)

Section FaultOrContent.

Context {Req I T : Type} {UT : Unmarshaler T}.


Lemma Body_child_HTTPStatus (b : Body Req) (m : T) se d err b' m' d' :
  (forall f, Body_Fault b = Some f -> HTTPStatus f = 0%Z) ->
  Body_child b m se d = Some (err, b', m', d') ->
  forall f, Body_Fault b' = Some f -> HTTPStatus f = 0%Z.
Proof.
  intros HP. unfold Body_child. destruct (isFaultName (StartName se)).
  - destruct (DecodeElement_Fault Fault_zero se d) as [[[e f] d0]|] eqn:Hd;
      [|discriminate].
    apply DecodeElement_Fault_HTTPStatus in Hd.
    intros H; inversion H; subst. intros f0 Hf0. inversion Hf0; subst.
    exact Hd.
  - destruct (DecodeElement (Body_Content b) m se d) as [[[e x] d0]|];
      [|discriminate].
    intros H; inversion H; subst. exact HP.
Qed.


End FaultOrContent.

(** ** A second child *)

Section SecondElement.

Context {Req T : Type} {UT : Unmarshaler T}.

(** C1, as the code has it.  When the loop meets a first start element
    [se1] and the decoding of that element gives an error, the decoding
    of the body returns this error; when it gives none and a second start
    element [se2] follows, with nothing but other tokens in between, the
    decoding of the body returns the multiple-elements error, whatever
    the elements are and whether the first went to a [Fault] or to the
    content.  A first element with the name of a fault always decodes
    without error: two elements then give the multiple-elements error
    whatever they hold. *)
Theorem Body_second_element :
  (forall (b : Body Req) (m : T) start j1 se1 d1 err1 b1 m1 d2 j2 se2 rest,
     Body_Content b <> None ->
     forallb isOtherRead j1 = true ->
     forallb isOtherRead j2 = true ->
     Body_child b m se1 d1 = Some (err1, b1, m1, d2) ->
     (err1 = None -> d2 = j2 ++ RToken (TStartElement se2) :: rest) ->
     Body_UnmarshalXML b m (j1 ++ RToken (TStartElement se1) :: d1) start
     = Some (match err1 with
             | Some e => (Some e, b1, m1, d2)
             | None => (Some errMultiple, b1, m1, rest)
             end))
  /\ (forall (b : Body Req) (m : T) start j1 se1 kids j2 se2 rest,
        Body_Content b <> None ->
        forallb isOtherRead j1 = true ->
        forallb isOtherRead j2 = true ->
        isFaultName (StartName se1) = true ->
        exists f,
          Body_UnmarshalXML b m
            (j1 ++ reads [Element se1 kids]
             ++ j2 ++ RToken (TStartElement se2) :: rest) start
          = Some (Some errMultiple, mkBody (Body_XMLName b) (Some f) None,
                  m, rest)).
Proof.
  split.
  - intros. eapply Body_second_child; eauto.
  - intros b m start j1 se1 kids j2 se2 rest Hc Hj1 Hj2 Hn.
    eexists. rewrite reads_element. cbn [reads flat_map map app].
    rewrite app_nil_r.
    apply (Body_second_child b m start j1 se1 _ None _ m
             (j2 ++ RToken (TStartElement se2) :: rest) j2 se2 rest Hc Hj1 Hj2);
      [|reflexivity].
    unfold Body_child. rewrite Hn.
    rewrite DecodeElement_Fault_content by exact Hn. reflexivity.
Qed.

End SecondElement.

(** ** The decoding of a response returns *)

Section Returns.

Context {Req I T Ctx : Type} {UT : Unmarshaler T}.

(** The decoding of the caller's type returns. *)
Hypothesis decodeElement_returns :
  forall (m : T) se d, decodeElement m se d <> None.

Lemma Body_child_returns (b : Body Req) (m : T) se d :
  Body_child b m se d <> None.
Proof.
  unfold Body_child. destruct (isFaultName (StartName se)).
  - destruct (DecodeElement_Fault Fault_zero se d) as [[[e f] d0]|] eqn:Hd;
      [discriminate|].
    now apply DecodeElement_Fault_returning in Hd.
  - unfold DecodeElement. destruct (Body_Content b) as [[r| |]|];
      try discriminate.
    + destruct (decodeElement m se d) as [[[e x] n]|] eqn:Hd; [discriminate|].
      now apply decodeElement_returns in Hd.
    + destruct (Skip d); discriminate.
Qed.

Lemma Body_Loop_returns fuel : forall consumed (b : Body Req) (m : T) d,
  length d < fuel -> Body_Loop fuel consumed b m d <> None.
Proof.
  induction fuel as [|fuel IH]; intros consumed b m d Hlen; [lia|].
  simpl. destruct d as [|[t| |e] d1]; simpl in *; try discriminate.
  destruct t; try (apply IH; lia); try discriminate.
  destruct consumed; [discriminate|].
  destruct (Body_child b m se d1) as [[[[e b1] m1] d2]|] eqn:Hch;
    [|now apply Body_child_returns in Hch].
  apply Body_child_length in Hch.
  destruct e; [discriminate|]. apply IH. lia.
Qed.

Lemma Body_Loop_length fuel : forall consumed (b : Body Req) (m : T) d err b' m' d',
  Body_Loop fuel consumed b m d = Some (err, b', m', d') ->
  length d' <= length d.
Proof.
  induction fuel as [|fuel IH]; intros consumed b m d err b' m' d'; simpl;
    [discriminate|].
  destruct d as [|[t| |e] d1]; simpl;
    try (intros H; inversion H; subst; simpl; lia).
  destruct t; try (intros H; apply IH in H; lia);
    try (intros H; inversion H; subst; simpl; lia).
  destruct consumed; [intros H; inversion H; subst; simpl; lia|].
  destruct (Body_child b m se d1) as [[[[e b1] m1] d2]|] eqn:Hch;
    [|discriminate].
  apply Body_child_length in Hch.
  destruct e; [intros H; inversion H; subst; lia|].
  intros H; apply IH in H; lia.
Qed.

Lemma Body_UnmarshalXML_returns (b : Body Req) (m : T) d start :
  Body_UnmarshalXML b m d start <> None.
Proof.
  unfold Body_UnmarshalXML. destruct (Body_Content b); [|discriminate].
  apply Body_Loop_returns. lia.
Qed.

Lemma Body_unmarshal_field :
  consuming (Body_unmarshal (Req := Req) (T := T))
  /\ returning (Body_unmarshal (Req := Req) (T := T)).
Proof.
  split.
  - apply unmarshalInterface_consuming. intros [b m] d se err v' d'.
    cbn [fst snd]. unfold Body_UnmarshalXML.
    destruct (Body_Content b).
    + destruct (Body_Loop _ _ _ _ _) as [[[[e b1] m1] d1]|] eqn:Hl;
        [|discriminate].
      apply Body_Loop_length in Hl. intros H; inversion H; subst; exact Hl.
    + intros H; inversion H; subst; lia.
  - intros [b m] se d. unfold Body_unmarshal, unmarshalInterface.
    cbn [fst snd].
    destruct (Body_UnmarshalXML b m d se) as [[[[[e|] b1] m1] d1]|] eqn:Hb.
    + discriminate.
    + destruct (popEOF d d1); discriminate.
    + now apply Body_UnmarshalXML_returns in Hb.
Qed.

Lemma Header_unmarshal_field :
  consuming (Header_unmarshal (I := I))
  /\ returning (Header_unmarshal (I := I)).
Proof.
  assert (forall fi, In fi (ti_fields (Header_typeInfo (I := I))) ->
            consuming (fi_unmarshal fi) /\ returning (fi_unmarshal fi)) as Hf.
  { simpl. intros fi [<-|[]]. split.
    - apply field_consuming. intros v se d err v' d'. unfold Items_unmarshal.
      destruct (Skip d) as [[e|] d0] eqn:Hs; apply Skip_length in Hs;
        intros H; inversion H; subst; exact Hs.
    - intros v se d. cbn [field fi_unmarshal]. unfold Items_unmarshal.
      destruct (Skip d) as [[e|] d0]; discriminate. }
  split.
  - intros h se d err h' d'. unfold Header_unmarshal.
    destruct (unmarshal_struct _ _ _ _) as [[[e x] d0]|] eqn:Hu; [|discriminate].
    apply unmarshal_struct_consuming in Hu; [|intros fi Hin; now apply Hf].
    intros H; inversion H; subst; exact Hu.
  - intros h se d. unfold Header_unmarshal.
    destruct (unmarshal_struct _ _ _ _) as [[[e x] d0]|] eqn:Hu; [discriminate|].
    now apply unmarshal_struct_returning in Hu.
Qed.

Lemma field_returning {V F : Type} name xmlns (get : V -> F) set dec :
  returning dec -> returning (fi_unmarshal (field name xmlns get set dec)).
Proof.
  intros Hd v se d. simpl.
  destruct (dec (get v) se d) as [[[e x] d0]|] eqn:H0; [discriminate|].
  now apply Hd in H0.
Qed.

(** [xml.Unmarshal] on an envelope returns: no decoding in it runs out
    of fuel. *)
Lemma Unmarshal_returns d (env : Envelope Req I) (m : T) :
  Unmarshal d env m <> None.
Proof.
  unfold Unmarshal. destruct (findStart d) as [[[e|] [se|]] d1];
    try discriminate.
  destruct (unmarshal_struct Envelope_typeInfo (env, m) se d1)
    as [[[e em] d2]|] eqn:Hu; [discriminate|].
  apply unmarshal_struct_returning in Hu; [contradiction|].
  simpl. intros fi [<-|[<-|[]]]; split;
    try (apply field_consuming); try (apply field_returning);
    try apply Header_unmarshal_field; apply Body_unmarshal_field.
Qed.

(** [Call] returns. *)
Lemma Call_returns (E : Env Req I Ctx) s ctx soapAction request response (m : T) :
  Call E s ctx soapAction request response m <> None.
Proof.
  unfold Call.
  destruct (xml_Encode E _) as [[e|] buffer]; [discriminate|].
  destruct (xml_Flush E _); [discriminate|].
  destruct (http_NewRequest E _ _); [discriminate|].
  destruct (http_Do E _ _) as [e|resp]; [discriminate|].
  destruct (ReadAll resp) as [[e|] body]; [discriminate|].
  destruct (Nat.eqb _ _); [discriminate|].
  destruct (Z.eqb _ _); [discriminate|].
  destruct (Unmarshal _ _ _) as [[[[e|] env'] m']|] eqn:Hu.
  - discriminate.
  - destruct (Body_Fault _); discriminate.
  - now apply Unmarshal_returns in Hu.
Qed.

End Returns.

(** ** Decoding an envelope *)

Lemma findStart_prolog prolog se d :
  forallb isProlog prolog = true ->
  findStart (prolog ++ RToken (TStartElement se) :: d) = (None, Some se, d).
Proof.
  induction prolog as [|r rs IH]; intros H; [reflexivity|].
  simpl in H. apply andb_prop in H as [Hr Hrs].
  destruct r as [[]| |]; simpl in *; try discriminate; auto.
Qed.

Lemma reads_others kids :
  forallb (fun n => negb (isElement n)) kids = true ->
  forallb isOtherRead (reads kids) = true.
Proof.
  induction kids as [|k ks IH]; intros H; [reflexivity|].
  simpl in H. apply andb_prop in H as [Hk Hks].
  rewrite reads_cons, forallb_app, (IH Hks), andb_true_r.
  destruct k; simpl in *; try discriminate; reflexivity.
Qed.

Section EnvelopeDecoding.

Context {Req I T : Type} {UT : Unmarshaler T}.

Lemma Body_UnmarshalXML_empty (b : Body Req) (m : T) se kids rest start :
  Body_Content b <> None ->
  forallb (fun n => negb (isElement n)) kids = true ->
  Body_UnmarshalXML b m (content se kids ++ rest) start = Some (None, b, m, rest).
Proof.
  intros Hc Hk. unfold Body_UnmarshalXML.
  destruct (Body_Content b); [|congruence].
  rewrite content_app, length_app.
  replace (S (length (reads kids) + length (RToken (TEndElement (StartName se)) :: rest)))
    with (length (reads kids) + S (S (length rest))) by (simpl; lia).
  rewrite (Body_Loop_others (reads kids)) by now apply reads_others.
  apply Body_Loop_end.
Qed.

Lemma Body_unmarshal_empty (b : Body Req) (m : T) se kids rest :
  Body_Content b <> None ->
  forallb (fun n => negb (isElement n)) kids = true ->
  Body_unmarshal (b, m) se (content se kids ++ rest) = Some (None, (b, m), rest).
Proof.
  intros Hc Hk. unfold Body_unmarshal, unmarshalInterface. cbn [fst snd].
  rewrite Body_UnmarshalXML_empty by assumption.
  now rewrite popEOF_content.
Qed.

Lemma Header_unmarshal_content (h : option (Header I)) se kids rest :
  isEnvelopeField "Header" (StartName se) = true ->
  Header_unmarshal h se (content se kids ++ rest)
  = Some (None, Some (Header_decoded h se kids), rest).
Proof.
  intros Hn. unfold isEnvelopeField in Hn. apply andb_prop in Hn as [Hs Hl].
  apply String.eqb_eq in Hs, Hl.
  unfold Header_unmarshal, unmarshal_struct.
  cbn [ti_name ti_xmlns ti_setXMLName ti_fields Header_typeInfo].
  rewrite <- Hs, <- Hl.
  change (negb (String.eqb "Header" "") && negb (String.eqb "Header" "Header"))
    with false.
  change (negb (String.eqb envelopeNS "") && negb (String.eqb envelopeNS envelopeNS))
    with false.
  cbv iota. rewrite content_app.
  rewrite (unmarshal_loop_children _ false Header_assign).
  - reflexivity.
  - intros se' kids' fi _ Hfind sv rest'. cbn [find] in Hfind.
    destruct (fieldMatches se' _); [|discriminate].
    inversion Hfind; subst. cbn [field fi_unmarshal].
    unfold Items_unmarshal. now rewrite Skip_content.
  - rewrite length_app. pose proof (length_reads kids). lia.
Qed.

Lemma Envelope_fields_find se (fi : fieldInfo (Envelope Req I * T)) :
  find (fieldMatches se) (ti_fields Envelope_typeInfo) = Some fi ->
  (isEnvelopeField "Header" (StartName se) = true
   /\ fi = field "Header" envelopeNS (fun em => Envelope_Header (fst em))
             setEnvelope_Header Header_unmarshal)
  \/ (isEnvelopeField "Header" (StartName se) = false
      /\ isEnvelopeField "Body" (StartName se) = true
      /\ fi = field "Body" envelopeNS
                (fun em => (Envelope_Body (fst em), snd em))
                setEnvelope_Body Body_unmarshal).
Proof.
  cbn [ti_fields Envelope_typeInfo find]. unfold fieldMatches, isEnvelopeField.
  cbn [fi_xmlns fi_name field].
  change (String.eqb envelopeNS "") with false. cbn [orb].
  destruct (String.eqb envelopeNS (Space (StartName se))); cbn [andb];
    [|discriminate].
  destruct (String.eqb "Header" (Local (StartName se))).
  - intros H; inversion H. left. auto.
  - destruct (String.eqb "Body" (Local (StartName se))); [|discriminate].
    intros H; inversion H. right. auto.
Qed.

Lemma Unmarshal_empty_bodies prolog se children tail (env : Envelope Req I)
    (m : T) :
  forallb isProlog prolog = true ->
  StartName se = mkName envelopeNS "Envelope" ->
  Body_Content (Envelope_Body env) <> None ->
  (forall ce kids,
     In (Element ce kids) children ->
     isEnvelopeField "Body" (StartName ce) = true ->
     forallb (fun n => negb (isElement n)) kids = true) ->
  exists env',
    Unmarshal (prolog ++ reads [Element se children] ++ tail) env m
    = Some (None, env', m)
    /\ Envelope_Body env' = Envelope_Body env.
Proof.
  intros Hp Hn Hc Hkids.
  unfold Unmarshal. rewrite reads_element. cbn [app].
  rewrite findStart_prolog by exact Hp.
  unfold unmarshal_struct.
  cbn [ti_name ti_xmlns ti_setXMLName ti_fields Envelope_typeInfo].
  rewrite Hn. cbn [Local Space].
  change (negb (String.eqb "Envelope" "") && negb (String.eqb "Envelope" "Envelope"))
    with false.
  change (negb (String.eqb envelopeNS "") && negb (String.eqb envelopeNS envelopeNS))
    with false.
  cbv iota. rewrite <- Hn.
  set (P := fun em : Envelope Req I * T =>
              Envelope_Body (fst em) = Envelope_Body env /\ snd em = m).
  set (sv0 := setEnvelope_XMLName (env, m) (StartName se)).
  assert (P sv0) as HP0 by (split; reflexivity).
  rewrite <- app_assoc, content_app.
  set (d := RToken (TEndElement (StartName se)) :: reads [] ++ tail).
  replace (S (length (reads children ++ d)))
    with (length children + S (S (length (reads children ++ d)) - length children - 1)).
  2:{ rewrite length_app. pose proof (length_reads children). lia. }
  destruct (unmarshal_loop_prefix P (ti_fields Envelope_typeInfo) false
              Envelope_assign children)
    with (fuel := S (S (length (reads children ++ d)) - length children - 1))
         (sv := sv0) (data := "") (d := d) as [Hloop [HB HM]]; [|exact HP0|].
  - intros ce kids fi Hin Hfind sv rest [HsvB Hsvm].
    apply Envelope_fields_find in Hfind as [[Hh ->]|(Hh & Hb & ->)].
    + cbn [field fi_unmarshal]. unfold Envelope_assign. rewrite Hh.
      rewrite Header_unmarshal_content by exact Hh.
      split; [reflexivity|]. split; [exact HsvB|exact Hsvm].
    + cbn [field fi_unmarshal]. unfold Envelope_assign. rewrite Hh.
      rewrite Body_unmarshal_empty.
      * split; [|split; [exact HsvB|exact Hsvm]].
        destruct sv as [[n h b] m0]. reflexivity.
      * rewrite HsvB. exact Hc.
      * eapply Hkids; eauto.
  - cbn [ti_fields Envelope_typeInfo] in Hloop.
    rewrite Hloop. cbn [unmarshal_loop Decoder_Token d].
    eexists. split; [|exact HB].
    rewrite <- HM. reflexivity.
Qed.

End EnvelopeDecoding.

(** ** Call *)

Lemma length_zero (body : string) :
  Nat.eqb (String.length body) 0 = true <-> body = "".
Proof.
  destruct body; simpl; split; intros H; try reflexivity; discriminate.
Qed.

(** [Call] after an exchange that gave a response and its bytes. *)
Lemma Call_exchange {Req I T Ctx : Type} {UT : Unmarshaler T}
    (E : Env Req I Ctx) s ctx soapAction request response (m : T)
    buffer resp body :
  xml_Encode E (requestEnvelope s request) = (None, buffer) ->
  xml_Flush E (requestEnvelope s request) = None ->
  http_NewRequest E "POST" (url s) = None ->
  http_Do E ctx (postRequest s soapAction buffer) = inr resp ->
  ReadAll resp = (None, body) ->
  Call E s ctx soapAction request response m
  = if Nat.eqb (String.length body) 0 then Some (Some errBody, m)
    else if Z.eqb (StatusCode resp) 401 then Some (Some errUnauthorized, m)
    else
      match Unmarshal (xml_NewDecoder E body)
              (responseEnvelope (I := I) (orDiscard response)) m with
      | None => None
      | Some (Some _, _, m') =>
          Some (Some (errorString
                 ("soap: " ++ Status resp ++ " ("
                  ++ itoa (StatusCode resp) ++ ")")%string), m')
      | Some (None, respEnvelope', m') =>
          match Body_Fault (Envelope_Body respEnvelope') with
          | Some f =>
              Some (Some (FaultError (setHTTPStatus f (StatusCode resp))), m')
          | None => Some (None, m')
          end
      end.
Proof.
  intros He Hf Hn Hd Hr. unfold Call.
  rewrite He, Hf, Hn, Hd, Hr. reflexivity.
Qed.

Section CallProperties.

Context {Req I T Ctx : Type} {UT : Unmarshaler T}.

Variables (E : Env Req I Ctx) (s : Client I) (ctx : Ctx) (soapAction : string).
Variables (request : option Req) (response : option (interface Req)) (m : T).
Variables (buffer : string) (resp : http_Response) (body : string).

Hypothesis encoded : xml_Encode E (requestEnvelope s request) = (None, buffer).
Hypothesis flushed : xml_Flush E (requestEnvelope s request) = None.
Hypothesis request_made : http_NewRequest E "POST" (url s) = None.
Hypothesis exchanged : http_Do E ctx (postRequest s soapAction buffer) = inr resp.
Hypothesis body_read : ReadAll resp = (None, body).

(** C2. Once the response and its bytes are there: a response of no
    bytes makes [Call] return the empty-body error whatever its status,
    401 included; a response of some bytes and status 401 makes it return
    the unauthorized error, whatever the bytes are and whatever tokens an
    XML decoder would read from them.  The caller's variable is not
    written in either case. *)
Theorem Call_empty_body_before_unauthorized :
  (body = "" ->
   Call E s ctx soapAction request response m = Some (Some errBody, m))
  /\ (body <> "" ->
      StatusCode resp = 401%Z ->
      forall newDecoder,
        Call (setNewDecoder E newDecoder) s ctx soapAction request response m
        = Some (Some errUnauthorized, m)).
Proof.
  split.
  - intros ->.
    now rewrite (Call_exchange E s ctx soapAction request response m
                   buffer resp "" encoded flushed request_made exchanged body_read).
  - intros Hb Hs newDecoder.
    rewrite (Call_exchange (setNewDecoder E newDecoder) s ctx soapAction
               request response m buffer resp body
               encoded flushed request_made exchanged body_read).
    destruct (Nat.eqb (String.length body) 0) eqn:Hl.
    + apply length_zero in Hl. contradiction.
    + now rewrite Hs.
Qed.

(** C5. When the bytes of the response, not empty and of a status other
    than 401, decode without error into an envelope whose body holds a
    fault, [Call] returns this fault as its error, with [HTTPStatus] set
    to the status code of the response and its other fields as decoded.
    The decoder left [HTTPStatus] at 0: its value comes from the
    response's status alone. *)
Theorem Call_returns_fault env' m' f :
  body <> "" ->
  StatusCode resp <> 401%Z ->
  Unmarshal (xml_NewDecoder E body) (responseEnvelope (I := I) (orDiscard response)) m
  = Some (None, env', m') ->
  Body_Fault (Envelope_Body env') = Some f ->
  Call E s ctx soapAction request response m
  = Some (Some (FaultError (setHTTPStatus f (StatusCode resp))), m')
  /\ HTTPStatus (setHTTPStatus f (StatusCode resp)) = StatusCode resp
  /\ HTTPStatus f = 0%Z
  /\ setHTTPStatus f (StatusCode resp)
     = mkFault (Fault_XMLName f) (Code f) (Text f) (Actor f) (Detail f)
         (StatusCode resp).
Proof.
  intros Hb Hs Hu Hf.
  rewrite (Call_exchange E s ctx soapAction request response m
             buffer resp body encoded flushed request_made exchanged body_read).
  destruct (Nat.eqb (String.length body) 0) eqn:Hl;
    [apply length_zero in Hl; contradiction|].
  destruct (Z.eqb (StatusCode resp) 401) eqn:H401;
    [apply Z.eqb_eq in H401; contradiction|].
  rewrite Hu, Hf. repeat split.
  assert (forall f0, Body_Fault (Envelope_Body env') = Some f0
                     -> HTTPStatus f0 = 0%Z) as H0.
  { revert Hu.
    apply (Unmarshal_invariant
             (fun b : Body Req =>
                forall f0, Body_Fault b = Some f0 -> HTTPStatus f0 = 0%Z)).
    - intros. eapply Body_child_HTTPStatus; eauto.
    - simpl. discriminate. }
  now apply H0.
Qed.

(** C8. When the bytes of the response, not empty and of a status other
    than 401, are an envelope element whose body elements have no child
    element (next to any header and any other child), [Call] returns no
    error and the caller's variable holds what it held. *)
Theorem Call_empty_body prolog se children tail :
  body <> "" ->
  StatusCode resp <> 401%Z ->
  xml_NewDecoder E body = prolog ++ reads [Element se children] ++ tail ->
  forallb isProlog prolog = true ->
  StartName se = mkName envelopeNS "Envelope" ->
  (forall ce kids,
     In (Element ce kids) children ->
     isEnvelopeField "Body" (StartName ce) = true ->
     forallb (fun n => negb (isElement n)) kids = true) ->
  Call E s ctx soapAction request response m = Some (None, m).
Proof.
  intros Hb Hs Hd Hp Hn Hkids.
  rewrite (Call_exchange E s ctx soapAction request response m
             buffer resp body encoded flushed request_made exchanged body_read).
  destruct (Nat.eqb (String.length body) 0) eqn:Hl;
    [apply length_zero in Hl; contradiction|].
  destruct (Z.eqb (StatusCode resp) 401) eqn:H401;
    [apply Z.eqb_eq in H401; contradiction|].
  rewrite Hd.
  destruct (Unmarshal_empty_bodies prolog se children tail
              (responseEnvelope (I := I) (orDiscard response)) m Hp Hn)
    as (env' & -> & HB); [|exact Hkids|].
  - destruct response; discriminate.
  - now rewrite HB.
Qed.

End CallProperties.

(** ** Round trip through the body *)

Section RoundTrip.

Context {Req T : Type} {UT : Unmarshaler T}.

(** [marshal v]: the element that the encoder writes for the value [v]
    placed as the content of a body. *)
Variable marshal : T -> Node.

(** C9, as the code has it.  Let the encoder write the element [se]
    with children [kids] for the value [v], let this element not have the
    name of a fault, and let the decoding of this element into the
    destination give [v] and read the element and no more.  Then the
    decoding of the body that holds this element as its content leaves
    [v] in the destination, sets no fault, and returns no error. *)
Theorem Body_round_trip (b : Body Req) (m0 v : T) se kids bs rest start :
  Body_Content b = Some ifaceResponse ->
  marshal v = Element se kids ->
  isFaultName (StartName se) = false ->
  decodeElement m0 se
    (content se kids ++ RToken (TEndElement (StartName bs)) :: rest)
  = Some (None, v, length (content se kids)) ->
  Body_UnmarshalXML b m0 (content bs [marshal v] ++ rest) start
  = Some (None, b, v, rest).
Proof.
  intros Hc Hm Hn Hd. rewrite Hm.
  unfold Body_UnmarshalXML. rewrite Hc.
  rewrite content_app, reads_element. cbn [app].
  rewrite <- !app_assoc. cbn [reads flat_map map app].
  set (d1 := content se kids ++ RToken (TEndElement (StartName bs)) :: rest).
  cbn [length]. rewrite Body_Loop_first.
  unfold Body_child. rewrite Hn, Hc. unfold DecodeElement.
  fold d1 in Hd. rewrite Hd.
  unfold d1. rewrite skipn_app, skipn_all, Nat.sub_diag. cbn [skipn app].
  rewrite length_app. cbn [length].
  replace (length (content se kids) + S (length rest))
    with (S (length (content se kids) + length rest)) by lia.
  apply Body_Loop_end.
Qed.

End RoundTrip.

(** * Further properties of the code *)

(** ** A body with one child *)

Section OneChild.

Context {Req I T : Type} {UT : Unmarshaler T}.

Lemma noElement_others ns :
  noElement ns = true -> forallb isOtherRead (reads ns) = true.
Proof. apply reads_others. Qed.

(** The decoding of a body whose only child element decodes without
    error. *)
Lemma Body_one_child (b : Body Req) (m : T) bse j1 cse ckids j2 rest b1 m1 :
  Body_Content b <> None ->
  noElement j1 = true ->
  noElement j2 = true ->
  Body_child b m cse
    (content cse ckids ++ reads j2 ++ RToken (TEndElement (StartName bse)) :: rest)
  = Some (None, b1, m1,
          reads j2 ++ RToken (TEndElement (StartName bse)) :: rest) ->
  Body_UnmarshalXML b m (content bse (j1 ++ Element cse ckids :: j2) ++ rest) bse
  = Some (None, b1, m1, rest).
Proof.
  intros Hc Hj1 Hj2 Hchild.
  unfold Body_UnmarshalXML. destruct (Body_Content b); [|congruence].
  rewrite content_app, reads_app, reads_element, <- !app_assoc.
  cbn [app]. rewrite <- !app_assoc.
  set (d2 := reads j2 ++ RToken (TEndElement (StartName bse)) :: rest) in *.
  set (d1 := content cse ckids ++ d2) in *.
  rewrite length_app. cbn [length].
  replace (S (length (reads j1) + S (length d1)))
    with (length (reads j1) + S (S (length d1))) by lia.
  rewrite (Body_Loop_others (reads j1)) by now apply reads_others.
  rewrite Body_Loop_first, Hchild.
  assert (length (reads j2) < S (length d1)) as Hlen.
  { unfold d1, d2. rewrite !length_app. simpl. lia. }
  replace (S (length d1))
    with (length (reads j2) + S (S (length d1) - length (reads j2) - 1)) by lia.
  unfold d2.
  rewrite (Body_Loop_others (reads j2)) by now apply reads_others.
  apply Body_Loop_end.
Qed.

Lemma isEnvelopeField_Body_not_Header n :
  isEnvelopeField "Body" n = true -> isEnvelopeField "Header" n = false.
Proof.
  unfold isEnvelopeField. intros H. apply andb_prop in H as [_ H].
  apply String.eqb_eq in H. rewrite <- H.
  now destruct (String.eqb envelopeNS (Space n)).
Qed.

Lemma Envelope_fields_body bse :
  isEnvelopeField "Body" (StartName bse) = true ->
  find (fieldMatches bse) (ti_fields (Envelope_typeInfo (Req := Req) (I := I) (T := T)))
  = Some (field "Body" envelopeNS
            (fun em => (Envelope_Body (fst em), snd em))
            setEnvelope_Body Body_unmarshal).
Proof.
  intros Hb. pose proof (isEnvelopeField_Body_not_Header _ Hb) as Hh.
  cbn [ti_fields Envelope_typeInfo find]. unfold fieldMatches.
  cbn [fi_xmlns fi_name field].
  change (String.eqb envelopeNS "") with false. cbn [orb].
  unfold isEnvelopeField in Hb, Hh. rewrite Hh, Hb. reflexivity.
Qed.

Lemma Body_unmarshal_ok (bm : Body Req * T) se kids rest b' m' :
  Body_UnmarshalXML (fst bm) (snd bm) (content se kids ++ rest) se
  = Some (None, b', m', rest) ->
  Body_unmarshal bm se (content se kids ++ rest) = Some (None, (b', m'), rest).
Proof.
  intros H. unfold Body_unmarshal, unmarshalInterface.
  now rewrite H, popEOF_content.
Qed.

(** The children of an envelope that are no body leave its body and
    the caller's variable as they are. *)
Lemma Envelope_other_children children fuel (sv : Envelope Req I * T) d :
  noBody children = true ->
  exists sv',
    unmarshal_loop (length children + fuel) (ti_fields Envelope_typeInfo)
      false sv "" (reads children ++ d)
    = unmarshal_loop fuel (ti_fields Envelope_typeInfo) false sv' "" d
    /\ Envelope_Body (fst sv') = Envelope_Body (fst sv)
    /\ snd sv' = snd sv.
Proof.
  intros Hnb.
  set (P := fun em : Envelope Req I * T =>
              Envelope_Body (fst em) = Envelope_Body (fst sv)
              /\ snd em = snd sv).
  destruct (unmarshal_loop_prefix P (ti_fields Envelope_typeInfo) false
              Envelope_assign children)
    with (fuel := fuel) (sv := sv) (data := "") (d := d) as [Hloop [HB HM]].
  - intros ce kids fi Hin Hfind sv0 rest [HsvB Hsvm].
    apply Envelope_fields_find in Hfind as [[Hh ->]|(Hh & Hb & ->)].
    + cbn [field fi_unmarshal]. unfold Envelope_assign. rewrite Hh.
      rewrite Header_unmarshal_content by exact Hh.
      split; [reflexivity|]. split; [exact HsvB|exact Hsvm].
    + unfold noBody in Hnb. rewrite forallb_forall in Hnb.
      specialize (Hnb _ Hin). cbn in Hnb. rewrite Hb in Hnb. discriminate.
  - split; reflexivity.
  - eexists. split; [exact Hloop|]. split; assumption.
Qed.

(** [xml.Unmarshal] on an envelope with one body, whose decoding gives
    no error. *)
Lemma Unmarshal_one_body prolog se pre bse kids post tail
    (env : Envelope Req I) (m : T) b' m' :
  forallb isProlog prolog = true ->
  StartName se = mkName envelopeNS "Envelope" ->
  noBody pre = true ->
  noBody post = true ->
  isEnvelopeField "Body" (StartName bse) = true ->
  (forall rest,
     Body_UnmarshalXML (Envelope_Body env) m (content bse kids ++ rest) bse
     = Some (None, b', m', rest)) ->
  exists env',
    Unmarshal
      (prolog ++ reads [Element se (pre ++ Element bse kids :: post)] ++ tail)
      env m
    = Some (None, env', m')
    /\ Envelope_Body env' = b'.
Proof.
  intros Hp Hn Hpre Hpost Hb Hbody.
  unfold Unmarshal. rewrite reads_element. cbn [app].
  rewrite findStart_prolog by exact Hp.
  unfold unmarshal_struct.
  cbn [ti_name ti_xmlns ti_setXMLName ti_fields Envelope_typeInfo].
  rewrite Hn. cbn [Local Space].
  change (negb (String.eqb "Envelope" "") && negb (String.eqb "Envelope" "Envelope"))
    with false.
  change (negb (String.eqb envelopeNS "") && negb (String.eqb envelopeNS envelopeNS))
    with false.
  cbv iota. rewrite <- Hn.
  set (sv0 := setEnvelope_XMLName (env, m) (StartName se)).
  rewrite <- app_assoc, content_app, reads_app, reads_element, <- !app_assoc.
  cbn [app]. rewrite <- !app_assoc.
  set (d3 := RToken (TEndElement (StartName se)) :: reads [] ++ tail).
  set (d2 := reads post ++ d3).
  set (d1 := RToken (TStartElement bse) :: content bse kids ++ d2).
  assert (exists k, S (length (reads pre ++ d1))
                    = length pre + S (length post + S k)) as [k ->].
  { exists (length (reads pre ++ d1) - length pre - length post - 1).
    unfold d1, d2, d3. rewrite !length_app. cbn [length].
    rewrite !length_app. cbn [length].
    pose proof (length_reads pre). pose proof (length_reads post). lia. }
  destruct (Envelope_other_children pre (S (length post + S k)) sv0 d1 Hpre)
    as (sv1 & Hl1 & HB1 & HM1).
  cbn [ti_fields Envelope_typeInfo] in Hl1. rewrite Hl1.
  unfold d1. cbn [unmarshal_loop Decoder_Token]. unfold unmarshalPath.
  pose proof (Envelope_fields_body bse Hb) as Hfind.
  cbn [ti_fields Envelope_typeInfo] in Hfind. rewrite Hfind.
  cbn [field fi_unmarshal].
  rewrite (Body_unmarshal_ok _ bse kids d2 b' m');
    [|cbn [fst snd]; rewrite HB1, HM1; apply Hbody].
  destruct (Envelope_other_children post (S k)
              (setEnvelope_Body sv1 (b', m')) d3 Hpost) as (sv2 & Hl2 & HB2 & HM2).
  cbn [ti_fields Envelope_typeInfo] in Hl2.
  unfold d2. rewrite Hl2. unfold d3. cbn [unmarshal_loop Decoder_Token].
  eexists. split.
  - rewrite HM2. reflexivity.
  - rewrite HB2. reflexivity.
Qed.

Lemma findStart_none d :
  forallb isProlog d = true -> findStart d = (Some io_EOF, None, []).
Proof.
  induction d as [|r rs IH]; intros H; [reflexivity|].
  simpl in H. apply andb_prop in H as [Hr Hrs].
  destruct r as [[]| |]; simpl in *; try discriminate; auto.
Qed.

(** [xml.Unmarshal] on a document whose first element has not the name
    of an envelope. *)
Lemma Unmarshal_not_an_envelope prolog se d (env : Envelope Req I) (m : T) :
  forallb isProlog prolog = true ->
  isEnvelopeField "Envelope" (StartName se) = false ->
  exists err,
    Unmarshal (prolog ++ RToken (TStartElement se) :: d) env m
    = Some (Some err, env, m).
Proof.
  intros Hp Hn. unfold Unmarshal. rewrite findStart_prolog by exact Hp.
  unfold unmarshal_struct. cbn [ti_name ti_xmlns Envelope_typeInfo].
  change (String.eqb "Envelope" "") with false.
  change (String.eqb envelopeNS "") with false.
  cbn [negb andb]. unfold isEnvelopeField in Hn.
  destruct (String.eqb "Envelope" (Local (StartName se))); cbn [negb].
  - rewrite andb_true_r in Hn. rewrite Hn. cbn [negb]. eexists. reflexivity.
  - eexists. reflexivity.
Qed.

(** [xml.Unmarshal] on an envelope whose first body does not decode. *)
Lemma Unmarshal_body_error prolog se pre bse d
    (env : Envelope Req I) (m : T) err b' m' d' :
  forallb isProlog prolog = true ->
  StartName se = mkName envelopeNS "Envelope" ->
  noBody pre = true ->
  isEnvelopeField "Body" (StartName bse) = true ->
  Body_UnmarshalXML (Envelope_Body env) m d bse = Some (Some err, b', m', d') ->
  exists env',
    Unmarshal
      (prolog ++ RToken (TStartElement se) :: reads pre
       ++ RToken (TStartElement bse) :: d) env m
    = Some (Some err, env', m').
Proof.
  intros Hp Hn Hpre Hb Hbody.
  unfold Unmarshal. rewrite findStart_prolog by exact Hp.
  unfold unmarshal_struct.
  cbn [ti_name ti_xmlns ti_setXMLName ti_fields Envelope_typeInfo].
  rewrite Hn. cbn [Local Space].
  change (negb (String.eqb "Envelope" "") && negb (String.eqb "Envelope" "Envelope"))
    with false.
  change (negb (String.eqb envelopeNS "") && negb (String.eqb envelopeNS envelopeNS))
    with false.
  cbv iota. rewrite <- Hn.
  set (sv0 := setEnvelope_XMLName (env, m) (StartName se)).
  set (d1 := RToken (TStartElement bse) :: d).
  assert (exists k, S (length (reads pre ++ d1)) = length pre + S k) as [k ->].
  { exists (length (reads pre ++ d1) - length pre).
    unfold d1. rewrite !length_app. cbn [length].
    pose proof (length_reads pre). lia. }
  destruct (Envelope_other_children pre (S k) sv0 d1 Hpre)
    as (sv1 & Hl1 & HB1 & HM1).
  cbn [ti_fields Envelope_typeInfo] in Hl1. rewrite Hl1.
  unfold d1. cbn [unmarshal_loop Decoder_Token]. unfold unmarshalPath.
  pose proof (Envelope_fields_body bse Hb) as Hfind.
  cbn [ti_fields Envelope_typeInfo] in Hfind. rewrite Hfind.
  cbn [field fi_unmarshal]. unfold Body_unmarshal, unmarshalInterface.
  cbn [fst snd]. rewrite HB1, HM1. unfold sv0. cbn [setEnvelope_XMLName fst snd].
  cbn [Envelope_Body]. rewrite Hbody. eexists. reflexivity.
Qed.

End OneChild.

(** ** The fault of a fault element *)

Lemma Fault_XMLName_of_children kids : forall f,
  Fault_XMLName (applyChildren (ti_fields Fault_typeInfo) Fault_assign kids f)
  = Fault_XMLName f.
Proof.
  induction kids as [|c cs IH]; intros f; [reflexivity|].
  destruct c as [se ks|s|s|t i|s]; try apply IH.
  rewrite Fault_applyChildren_element, IH.
  fault_field_cases se.
Qed.

Lemma DecodeElement_Fault_decoded se kids tail :
  isFaultName (StartName se) = true ->
  DecodeElement_Fault Fault_zero se (content se kids ++ tail)
  = Some (None, Fault_decoded se kids, tail).
Proof.
  intros Hn. rewrite DecodeElement_Fault_content by exact Hn.
  pose proof (Fault_fields_of_children kids
                (setFault_XMLName Fault_zero (StartName se)))
    as (HC & HT & HA & HD & HS).
  pose proof (Fault_XMLName_of_children kids
                (setFault_XMLName Fault_zero (StartName se))) as HX.
  destruct (applyChildren _ _ _ _) as [n c t a d st].
  cbn in HC, HT, HA, HD, HS, HX. subst. reflexivity.
Qed.

(** The fields of the fault element of [f], as the decoder assigns
    them. *)
Lemma Fault_decoded_children f :
  Fault_decoded Fault_start (Fault_children f)
  = mkFault (mkName envelopeNS "Fault") (TrimSpace (Code f)) (TrimSpace (Text f))
      (TrimSpace (Actor f)) (TrimSpace (Detail f)) 0.
Proof.
  unfold Fault_decoded, Fault_children, fieldElement.
  destruct f as [n c t a d st]. cbn [Code Text Actor Detail].
  destruct (String.eqb c "") eqn:Hc; [apply String.eqb_eq in Hc; subst c|];
  (destruct (String.eqb t "") eqn:Ht; [apply String.eqb_eq in Ht; subst t|]);
  (destruct (String.eqb a "") eqn:Ha; [apply String.eqb_eq in Ha; subst a|]);
  (destruct (String.eqb d "") eqn:Hd; [apply String.eqb_eq in Hd; subst d|]);
  cbn; rewrite ?append_empty_r; reflexivity.
Qed.

(** A body whose only child element is a fault. *)
Lemma Body_fault_child {Req T : Type} {UT : Unmarshaler T}
    (b : Body Req) (m : T) bse j1 fse fkids j2 rest :
  Body_Content b <> None ->
  noElement j1 = true ->
  noElement j2 = true ->
  isFaultName (StartName fse) = true ->
  Body_UnmarshalXML b m (content bse (j1 ++ Element fse fkids :: j2) ++ rest) bse
  = Some (None, mkBody (Body_XMLName b) (Some (Fault_decoded fse fkids)) None,
          m, rest).
Proof.
  intros Hc Hj1 Hj2 Hn. apply Body_one_child; auto.
  unfold Body_child. rewrite Hn.
  now rewrite DecodeElement_Fault_decoded by exact Hn.
Qed.

(** ** Call on a response of one body *)

Section OneBodyResponse.

Context {Req I T Ctx : Type} {UT : Unmarshaler T}.

Variables (E : Env Req I Ctx) (s : Client I) (ctx : Ctx) (soapAction : string).
Variables (request : option Req) (response : option (interface Req)) (m : T).
Variables (buffer : string) (resp : http_Response) (body : string).
Variables (prolog : list Read) (se : StartElement) (pre : list Node).
Variables (bse : StartElement) (post : list Node) (tail : list Read).

Hypothesis encoded : xml_Encode E (requestEnvelope s request) = (None, buffer).
Hypothesis flushed : xml_Flush E (requestEnvelope s request) = None.
Hypothesis request_made : http_NewRequest E "POST" (url s) = None.
Hypothesis exchanged : http_Do E ctx (postRequest s soapAction buffer) = inr resp.
Hypothesis body_read : ReadAll resp = (None, body).
Hypothesis not_empty : body <> "".
Hypothesis not_401 : StatusCode resp <> 401%Z.
Hypothesis prolog_passed : forallb isProlog prolog = true.
Hypothesis envelope_name : StartName se = mkName envelopeNS "Envelope".
Hypothesis body_name : isEnvelopeField "Body" (StartName bse) = true.
Hypothesis one_body_pre : noBody pre = true.
Hypothesis one_body_post : noBody post = true.

Lemma Call_one_body kids b' m' :
  xml_NewDecoder E body
  = prolog ++ reads [Element se (pre ++ Element bse kids :: post)] ++ tail ->
  (forall rest,
     Body_UnmarshalXML (mkBody Name_zero None (orDiscard response)) m
       (content bse kids ++ rest) bse
     = Some (None, b', m', rest)) ->
  Call E s ctx soapAction request response m
  = Some (match Body_Fault b' with
          | Some f => Some (FaultError (setHTTPStatus f (StatusCode resp)))
          | None => None
          end, m').
Proof.
  intros Hd Hbody.
  rewrite (Call_exchange E s ctx soapAction request response m
             buffer resp body encoded flushed request_made exchanged body_read).
  destruct (Nat.eqb (String.length body) 0) eqn:Hl;
    [apply length_zero in Hl; contradiction|].
  destruct (Z.eqb (StatusCode resp) 401) eqn:H401;
    [apply Z.eqb_eq in H401; contradiction|].
  rewrite Hd.
  destruct (Unmarshal_one_body prolog se pre bse kids post tail
              (responseEnvelope (I := I) (orDiscard response)) m b' m'
              prolog_passed envelope_name one_body_pre one_body_post body_name
              Hbody) as (env' & -> & ->).
  now destruct (Body_Fault b').
Qed.

(** X1. A response whose envelope has one body, which holds a fault
    element and no other element, makes [Call] return the fault decoded
    from that element: its name, for each field the trimmed text of the
    last child of the local name of its tag, in whatever name space, and
    the status code of the response.  The
    caller's variable is not written, whatever was given as
    [response]. *)
Theorem Call_fault_response j1 fse fkids j2 :
  xml_NewDecoder E body
  = prolog
    ++ reads [Element se (pre ++ Element bse (j1 ++ Element fse fkids :: j2) :: post)]
    ++ tail ->
  noElement j1 = true ->
  noElement j2 = true ->
  isFaultName (StartName fse) = true ->
  Call E s ctx soapAction request response m
  = Some (Some (FaultError
                  (mkFault (StartName fse)
                     (fieldText "faultcode" "" fkids)
                     (fieldText "faultstring" "" fkids)
                     (fieldText "faultactor" "" fkids)
                     (fieldText "detail" "" fkids)
                     (StatusCode resp))), m).
Proof.
  intros Hd Hj1 Hj2 Hn.
  rewrite (Call_one_body _ (mkBody Name_zero (Some (Fault_decoded fse fkids)) None)
             m Hd); [reflexivity|].
  intros rest. apply Body_fault_child; auto.
  destruct response; discriminate.
Qed.

(** X2. The fault element of [f] as the only element in the body of a
    response makes [Call] return [f] with each of its fields trimmed of
    white space, the name of the element as its [XMLName], and the
    status code of the response as its [HTTPStatus], whatever [f] had
    there. *)
Theorem Call_fault_element f j1 j2 :
  xml_NewDecoder E body
  = prolog
    ++ reads [Element se
                (pre ++ Element bse
                          (j1 ++ Element Fault_start (Fault_children f) :: j2)
                        :: post)]
    ++ tail ->
  noElement j1 = true ->
  noElement j2 = true ->
  Call E s ctx soapAction request response m
  = Some (Some (FaultError
                  (mkFault (mkName envelopeNS "Fault")
                     (TrimSpace (Code f)) (TrimSpace (Text f))
                     (TrimSpace (Actor f)) (TrimSpace (Detail f))
                     (StatusCode resp))), m).
Proof.
  intros Hd Hj1 Hj2.
  rewrite (Call_one_body _
             (mkBody Name_zero
                (Some (Fault_decoded Fault_start (Fault_children f))) None)
             m Hd).
  - cbn [Body_Fault]. rewrite Fault_decoded_children. reflexivity.
  - intros rest. apply Body_fault_child; auto.
    destruct response; discriminate.
Qed.

(** X3. With a nil [response], a response whose body holds one
    element, which is no fault, makes [Call] return no error, whatever
    the element holds: it is skipped. *)
Theorem Call_discard_response j1 cse ckids j2 :
  response = None ->
  xml_NewDecoder E body
  = prolog
    ++ reads [Element se (pre ++ Element bse (j1 ++ Element cse ckids :: j2) :: post)]
    ++ tail ->
  noElement j1 = true ->
  noElement j2 = true ->
  isFaultName (StartName cse) = false ->
  Call E s ctx soapAction request response m = Some (None, m).
Proof.
  intros Hr Hd Hj1 Hj2 Hn.
  rewrite (Call_one_body _ (mkBody Name_zero None (orDiscard response)) m Hd);
    [reflexivity|].
  intros rest. apply Body_one_child; auto.
  - destruct response; discriminate.
  - unfold Body_child. rewrite Hn. subst response.
    cbn [orDiscard Body_Content DecodeElement].
    now rewrite Skip_content.
Qed.

(** X4. With the caller's destination as [response], a response whose
    body holds one element, which is no fault and which the
    destination's decoding reads whole and without error, makes [Call]
    return no error and leaves the decoded value in the caller's
    variable. *)
Theorem Call_content_response j1 cse ckids j2 v :
  response = Some ifaceResponse ->
  xml_NewDecoder E body
  = prolog
    ++ reads [Element se (pre ++ Element bse (j1 ++ Element cse ckids :: j2) :: post)]
    ++ tail ->
  noElement j1 = true ->
  noElement j2 = true ->
  isFaultName (StartName cse) = false ->
  (forall rest,
     decodeElement m cse (content cse ckids ++ rest)
     = Some (None, v, length (content cse ckids))) ->
  Call E s ctx soapAction request response m = Some (None, v).
Proof.
  intros Hr Hd Hj1 Hj2 Hn Hdec.
  rewrite (Call_one_body _ (mkBody Name_zero None (orDiscard response)) v Hd);
    [reflexivity|].
  intros rest. apply Body_one_child; auto.
  - destruct response; discriminate.
  - unfold Body_child. rewrite Hn. subst response.
    cbn [orDiscard Body_Content DecodeElement]. rewrite Hdec.
    rewrite skipn_app, skipn_all, Nat.sub_diag. reflexivity.
Qed.

End OneBodyResponse.

(** ** Call on a response that does not decode *)

Section UndecodedResponse.

Context {Req I T Ctx : Type} {UT : Unmarshaler T}.

Variables (E : Env Req I Ctx) (s : Client I) (ctx : Ctx) (soapAction : string).
Variables (request : option Req) (response : option (interface Req)) (m : T).
Variables (buffer : string) (resp : http_Response) (body : string).

Hypothesis encoded : xml_Encode E (requestEnvelope s request) = (None, buffer).
Hypothesis flushed : xml_Flush E (requestEnvelope s request) = None.
Hypothesis request_made : http_NewRequest E "POST" (url s) = None.
Hypothesis exchanged : http_Do E ctx (postRequest s soapAction buffer) = inr resp.
Hypothesis body_read : ReadAll resp = (None, body).
Hypothesis not_empty : body <> "".
Hypothesis not_401 : StatusCode resp <> 401%Z.

Lemma Call_undecoded err env' m' :
  Unmarshal (xml_NewDecoder E body)
    (responseEnvelope (I := I) (orDiscard response)) m
  = Some (Some err, env', m') ->
  Call E s ctx soapAction request response m = Some (Some (statusError resp), m').
Proof.
  intros Hu.
  rewrite (Call_exchange E s ctx soapAction request response m
             buffer resp body encoded flushed request_made exchanged body_read).
  destruct (Nat.eqb (String.length body) 0) eqn:Hl;
    [apply length_zero in Hl; contradiction|].
  destruct (Z.eqb (StatusCode resp) 401) eqn:H401;
    [apply Z.eqb_eq in H401; contradiction|].
  rewrite Hu. reflexivity.
Qed.

(** X5. A response whose first element has not the name of an
    envelope makes [Call] return the error of the status line, whatever
    follows the element; the caller's variable is not written. *)
Theorem Call_not_an_envelope prolog se d :
  xml_NewDecoder E body = prolog ++ RToken (TStartElement se) :: d ->
  forallb isProlog prolog = true ->
  isEnvelopeField "Envelope" (StartName se) = false ->
  Call E s ctx soapAction request response m = Some (Some (statusError resp), m).
Proof.
  intros Hd Hp Hn.
  destruct (Unmarshal_not_an_envelope prolog se d
              (responseEnvelope (I := I) (orDiscard response)) m Hp Hn)
    as [err Hu].
  apply (Call_undecoded err (responseEnvelope (orDiscard response)) m).
  rewrite Hd. exact Hu.
Qed.

(** X6. A response without any element, such as one of plain text,
    makes [Call] return the error of the status line; the caller's
    variable is not written. *)
Theorem Call_no_element :
  forallb isProlog (xml_NewDecoder E body) = true ->
  Call E s ctx soapAction request response m = Some (Some (statusError resp), m).
Proof.
  intros Hp. apply (Call_undecoded io_EOF (responseEnvelope (orDiscard response)) m).
  unfold Unmarshal. now rewrite findStart_none.
Qed.

Variables (prolog : list Read) (se : StartElement) (pre : list Node).
Variables (bse : StartElement).

Hypothesis prolog_passed : forallb isProlog prolog = true.
Hypothesis envelope_name : StartName se = mkName envelopeNS "Envelope".
Hypothesis body_name : isEnvelopeField "Body" (StartName bse) = true.
Hypothesis first_body : noBody pre = true.

(** X7. A second element in the body of a response makes [Call]
    return the error of the status line, although the first element was
    decoded into the caller's variable, which keeps what was decoded. *)
Theorem Call_second_element j1 c1 k1 j2 c2 d v :
  response = Some ifaceResponse ->
  xml_NewDecoder E body
  = prolog ++ RToken (TStartElement se) :: reads pre
    ++ RToken (TStartElement bse)
       :: reads (j1 ++ Element c1 k1 :: j2) ++ RToken (TStartElement c2) :: d ->
  noElement j1 = true ->
  noElement j2 = true ->
  isFaultName (StartName c1) = false ->
  (forall rest,
     decodeElement m c1 (content c1 k1 ++ rest)
     = Some (None, v, length (content c1 k1))) ->
  Call E s ctx soapAction request response m = Some (Some (statusError resp), v).
Proof.
  intros Hr Hd Hj1 Hj2 Hn Hdec.
  destruct (Unmarshal_body_error prolog se pre bse
              (reads (j1 ++ Element c1 k1 :: j2) ++ RToken (TStartElement c2) :: d)
              (responseEnvelope (I := I) (orDiscard response)) m
              errMultiple (mkBody Name_zero None (orDiscard response)) v d
              prolog_passed envelope_name first_body body_name)
    as [env' Hu].
  - cbn [responseEnvelope Envelope_Body].
    rewrite reads_app, reads_element, <- !app_assoc. cbn [app].
    rewrite <- !app_assoc.
    rewrite (Body_second_child _ m bse (reads j1) c1 _ None
               (mkBody Name_zero None (orDiscard response)) v
               (reads j2 ++ RToken (TStartElement c2) :: d) (reads j2) c2 d);
      auto using reads_others.
    + subst response. discriminate.
    + unfold Body_child. rewrite Hn. subst response.
      cbn [orDiscard Body_Content DecodeElement]. rewrite Hdec.
      rewrite skipn_app, skipn_all, Nat.sub_diag. reflexivity.
  - apply (Call_undecoded errMultiple env' v). rewrite Hd. exact Hu.
Qed.

(** X8. A fault followed by another element in the body of a response
    is not returned as a fault: [Call] returns the error of the status
    line. *)
Theorem Call_fault_then_element j1 fse fkids j2 c2 d :
  xml_NewDecoder E body
  = prolog ++ RToken (TStartElement se) :: reads pre
    ++ RToken (TStartElement bse)
       :: reads (j1 ++ Element fse fkids :: j2) ++ RToken (TStartElement c2) :: d ->
  noElement j1 = true ->
  noElement j2 = true ->
  isFaultName (StartName fse) = true ->
  Call E s ctx soapAction request response m = Some (Some (statusError resp), m).
Proof.
  intros Hd Hj1 Hj2 Hn.
  destruct (Unmarshal_body_error prolog se pre bse
              (reads (j1 ++ Element fse fkids :: j2) ++ RToken (TStartElement c2) :: d)
              (responseEnvelope (I := I) (orDiscard response)) m
              errMultiple (mkBody Name_zero (Some (Fault_decoded fse fkids)) None) m d
              prolog_passed envelope_name first_body body_name)
    as [env' Hu].
  - cbn [responseEnvelope Envelope_Body].
    rewrite reads_app, reads_element, <- !app_assoc. cbn [app].
    rewrite <- !app_assoc.
    rewrite (Body_second_child _ m bse (reads j1) fse _ None
               (mkBody Name_zero (Some (Fault_decoded fse fkids)) None) m
               (reads j2 ++ RToken (TStartElement c2) :: d) (reads j2) c2 d);
      auto using reads_others.
    + destruct response; discriminate.
    + unfold Body_child. rewrite Hn.
      now rewrite DecodeElement_Fault_decoded by exact Hn.
  - apply (Call_undecoded errMultiple env' m). rewrite Hd. exact Hu.
Qed.

End UndecodedResponse.

(** ** White space *)

Lemma trimRunes_fixed (back : bool) fuel s :
  spaceWidth back s = 0 -> trimRunes back fuel s = s.
Proof.
  intros Hw. destruct fuel; [reflexivity|].
  cbn [trimRunes]. now rewrite Hw.
Qed.

Lemma TrimSpace_fixed s :
  spaceWidth false (list_ascii_of_string s) = 0 ->
  spaceWidth true (rev (list_ascii_of_string s)) = 0 ->
  TrimSpace s = s.
Proof.
  intros Hl Hr. unfold TrimSpace, TrimLeft, TrimRight.
  rewrite (trimRunes_fixed false) by exact Hl.
  rewrite (trimRunes_fixed true) by exact Hr.
  now rewrite rev_involutive, string_of_list_ascii_of_string.
Qed.

Lemma spaceWidth_zero (back : bool) s :
  (forall r y, isSpaceRune r = true -> s <> (if back then rev r else r) ++ y) ->
  spaceWidth back s = 0.
Proof.
  intros H. destruct (spaceWidth back s) as [|w] eqn:Hw; [reflexivity|].
  destruct (spaceWidth_some _ _ _ Hw) as (r & Hr & Hs).
  exfalso. exact (H r (skipn (S w) s) Hr Hs).
Qed.

(** [strings.TrimSpace] leaves nothing for a second application. *)
Lemma TrimSpace_idempotent s : TrimSpace (TrimSpace s) = TrimSpace s.
Proof.
  destruct (TrimSpace_trimmed s) as (l & r & _ & _ & _ & Hfirst & Hlast).
  apply TrimSpace_fixed.
  - apply spaceWidth_zero. intros x y Hx. now apply Hfirst.
  - apply spaceWidth_zero. intros x y Hx Hxy.
    apply (Hlast x (rev y) Hx).
    rewrite <- (rev_involutive (list_ascii_of_string _)), Hxy, rev_app_distr.
    now rewrite rev_involutive.
Qed.

(** X9. [trimSpace.UnmarshalXML] on a whole element replaces the value
    by the character data of the element without the white space around
    it, whatever the value was, and reads the element and no more; an
    error of the decoder leaves the value as it was; and a value that was
    assigned is one that [strings.TrimSpace] does not change. *)
Theorem trimSpace_UnmarshalXML_trims :
  (forall ts se kids rest,
     trimSpace_UnmarshalXML ts (content se kids ++ rest) se
     = Some (None, TrimSpace (charData kids), rest))
  /\ (forall ts d se err ts' d',
        trimSpace_UnmarshalXML ts d se = Some (Some err, ts', d') -> ts' = ts)
  /\ (forall ts d se ts' d',
        trimSpace_UnmarshalXML ts d se = Some (None, ts', d') ->
        TrimSpace ts' = ts').
Proof.
  unfold trimSpace_UnmarshalXML. repeat split.
  - intros ts se kids rest. now rewrite DecodeElement_string_content.
  - intros ts d se err ts' d'.
    destruct (DecodeElement_string "" se d) as [[[[e|] v] d0]|];
      intros H; inversion H; reflexivity.
  - intros ts d se ts' d'.
    destruct (DecodeElement_string "" se d) as [[[[e|] v] d0]|];
      intros H; inversion H. apply TrimSpace_idempotent.
Qed.

(** ** The reads of a body before its first element *)

(** X10. Before the first element of a body, the reading stops at an
    error of the decoder, which is returned, at the end of the stream, with
    [io.EOF], and at a nil token, without error; the body and the
    caller's variable are as they were. *)
Theorem Body_UnmarshalXML_stops {Req T : Type} {UT : Unmarshaler T}
    (b : Body Req) (m : T) start j :
  Body_Content b <> None ->
  forallb isOtherRead j = true ->
  (forall e rest,
     Body_UnmarshalXML b m (j ++ RError e :: rest) start
     = Some (Some e, b, m, RError e :: rest))
  /\ Body_UnmarshalXML b m j start = Some (Some io_EOF, b, m, [])
  /\ (forall rest,
        Body_UnmarshalXML b m (j ++ RNil :: rest) start = Some (None, b, m, rest)).
Proof.
  intros Hc Hj. unfold Body_UnmarshalXML.
  destruct (Body_Content b); [clear Hc|congruence].
  repeat split.
  - intros e rest. rewrite length_app. cbn [length].
    replace (S (length j + S (length rest)))
      with (length j + S (S (length rest))) by lia.
    now rewrite (Body_Loop_others j) by exact Hj.
  - rewrite <- (app_nil_r j) at 2.
    replace (S (length j)) with (length j + 1) by lia.
    now rewrite (Body_Loop_others j) by exact Hj.
  - intros rest. rewrite length_app. cbn [length].
    replace (S (length j + S (length rest)))
      with (length j + S (S (length rest))) by lia.
    now rewrite (Body_Loop_others j) by exact Hj.
Qed.

(** ** The client and its requests *)

Lemma AddHeader_fold {I : Type} (hs : list (option I)) : forall s,
  fold_left AddHeader hs s = mkClient (url s) (auth s) (headers s ++ hs).
Proof.
  induction hs as [|h hs IH]; intros s; cbn [fold_left].
  - rewrite app_nil_r. now destruct s.
  - rewrite IH. unfold AddHeader. cbn [url auth headers].
    now rewrite <- app_assoc.
Qed.

(** X11. A client made by [NewClient] to which the headers [hs] were
    added in this order encodes an envelope with a header of these items, and
    without header when there are none, and with the request as content
    of its body; it posts the encoded bytes to its URL with the two
    header fields, [SOAPAction] also when it is empty, with the basic
    authorisation of its configuration and no other, and closes the
    connection; the headers added are no part of the HTTP request. *)
Theorem NewClient_request {Req I TLS : Type} address (c : Config TLS)
    (hs : list (option I)) (request : option Req) soapAction buffer :
  let s := fold_left AddHeader hs (fst (NewClient address c)) in
  requestEnvelope s request
  = mkEnvelope Name_zero
      (match hs with [] => None | _ :: _ => Some (mkHeader Name_zero hs) end)
      (mkBody Name_zero None (option_map ifaceRequest request))
  /\ postRequest s soapAction buffer
     = mkRequest "POST" address buffer
         [("Content-Type", ("text/xml; charset=" ++ quote ++ "utf-8" ++ quote)%string);
          ("SOAPAction", soapAction)]
         (option_map (fun a => (Username a, Password a)) (Config_BasicAuth c))
         true.
Proof.
  intros s. unfold s. rewrite AddHeader_fold.
  unfold NewClient. cbn [fst url auth headers app].
  split.
  - unfold requestEnvelope. cbn [headers]. now destruct hs.
  - unfold postRequest. cbn [url auth].
    now destruct (Config_BasicAuth c).
Qed.

(** ** The errors of Call *)

Section CallErrors.

Context {Req I T Ctx : Type} {UT : Unmarshaler T}.

Variables (E : Env Req I Ctx) (s : Client I) (ctx : Ctx) (soapAction : string).
Variables (request : option Req) (response : option (interface Req)) (m : T).

(** X12. The message of every error that [Call] returns begins with
    ["soap: "], a fault's too. *)
Theorem Call_error_prefix err m' :
  Call E s ctx soapAction request response m = Some (Some err, m') ->
  exists msg, Error err = ("soap: " ++ msg)%string.
Proof.
  unfold Call.
  destruct (xml_Encode E _) as [[e|] buffer];
    [intros H; inversion H; eexists; reflexivity|].
  destruct (xml_Flush E _) as [e|];
    [intros H; inversion H; eexists; reflexivity|].
  destruct (http_NewRequest E _ _) as [e|];
    [intros H; inversion H; eexists; reflexivity|].
  destruct (http_Do E _ _) as [e|resp];
    [intros H; inversion H; eexists; reflexivity|].
  destruct (ReadAll resp) as [[e|] body];
    [intros H; inversion H; eexists; reflexivity|].
  destruct (Nat.eqb _ _); [intros H; inversion H; eexists; reflexivity|].
  destruct (Z.eqb _ _); [intros H; inversion H; eexists; reflexivity|].
  destruct (Unmarshal _ _ _) as [[[[e|] env'] m1]|]; [| |discriminate].
  - intros H; inversion H. eexists. reflexivity.
  - destruct (Body_Fault _) as [f|]; intros H; inversion H.
    eexists. cbn [Error Fault_Error]. reflexivity.
Qed.

(** X13. An error of the encoder, of its flushing or of
    [http.NewRequest] makes [Call] return it behind ["soap: "]; no request is sent, the
    result being the same with any transport, and the caller's variable
    is not written. *)
Theorem Call_fails_before_exchange e do :
  fst (xml_Encode E (requestEnvelope s request)) = Some e
  \/ fst (xml_Encode E (requestEnvelope s request)) = None
     /\ (xml_Flush E (requestEnvelope s request) = Some e
         \/ xml_Flush E (requestEnvelope s request) = None
            /\ http_NewRequest E "POST" (url s) = Some e) ->
  Call (setDo E do) s ctx soapAction request response m
  = Some (Some (errorString ("soap: " ++ Error e)%string), m).
Proof.
  unfold Call, setDo. cbn [xml_Encode xml_Flush http_NewRequest http_Do].
  destruct (xml_Encode E _) as [[e0|] buffer]; cbn [fst].
  - intros [H|[H _]]; [now inversion H|discriminate].
  - intros [H|[_ H]]; [discriminate|].
    destruct (xml_Flush E _) as [e1|].
    + destruct H as [H|[H _]]; [now inversion H|discriminate].
    + destruct H as [H|[_ H]]; [discriminate|]. now rewrite H.
Qed.

(** X14. An error of the exchange, or of the reading of the response,
    makes [Call] return it behind ["soap: "], whatever the status code of the
    response and whatever its bytes were to be decoded to; the caller's
    variable is not written. *)
Theorem Call_exchange_error buffer e newDecoder :
  xml_Encode E (requestEnvelope s request) = (None, buffer) ->
  xml_Flush E (requestEnvelope s request) = None ->
  http_NewRequest E "POST" (url s) = None ->
  http_Do E ctx (postRequest s soapAction buffer) = inl e
  \/ (exists resp,
        http_Do E ctx (postRequest s soapAction buffer) = inr resp
        /\ fst (ReadAll resp) = Some e) ->
  Call (setNewDecoder E newDecoder) s ctx soapAction request response m
  = Some (Some (errorString ("soap: " ++ Error e)%string), m).
Proof.
  intros He Hf Hn Hd. unfold Call, setNewDecoder.
  cbn [xml_Encode xml_Flush http_NewRequest http_Do]. rewrite He, Hf, Hn.
  destruct Hd as [->|(resp & -> & Hr)]; [reflexivity|].
  destruct (ReadAll resp) as [[e0|] body]; cbn [fst] in Hr; [|discriminate].
  now inversion Hr.
Qed.

End CallErrors.

(** ** The type [response] of the tests *)

Lemma response_Unmarshaler_content r se kids rest :
  StartName se = mkName "test:call" "Response" ->
  response_Unmarshaler r se (content se kids ++ rest)
  = Some (None,
          applyChildren (ti_fields response_typeInfo) response_assign kids
            (setResponse_XMLName r (StartName se)),
          length (content se kids)).
Proof.
  intros Hn. unfold response_Unmarshaler, unmarshal_struct.
  cbn [ti_name ti_xmlns ti_setXMLName ti_fields response_typeInfo].
  rewrite Hn. cbn [Local Space].
  change (negb (String.eqb "Response" "") && negb (String.eqb "Response" "Response"))
    with false.
  change (negb (String.eqb "test:call" "") && negb (String.eqb "test:call" "test:call"))
    with false.
  cbv iota. rewrite <- Hn. rewrite content_app.
  rewrite (unmarshal_loop_children _ false response_assign).
  - rewrite <- content_app, length_app.
    replace (length (content se kids) + length rest - length rest)
      with (length (content se kids)) by lia.
    reflexivity.
  - intros se' kids' fi _ Hfind sv rest'.
    cbn [find] in Hfind.
    destruct (fieldMatches se' _); [|discriminate].
    inversion Hfind. cbn [field fi_unmarshal].
    now rewrite DecodeElement_string_content.
  - rewrite length_app. pose proof (length_reads kids). lia.
Qed.
(** * The properties on the documents of the tests *)

(** C1 as stated fails: with a destination of type [response], a body
    whose two children are [<Foo/>] and [<Bar/>] makes the decoding
    return the error of the first child's decoding, not the
    multiple-elements error. *)
Lemma Body_second_element_counterexample :
  Body_UnmarshalXML (UT := response_Unmarshaler) testBody response_zero
    (content bodyStart [testElement "Foo" []; testElement "Bar" []]) bodyStart
  = Some (Some (UnmarshalError "expected element type <Response> but have <Foo>"),
          testBody, response_zero,
          content (mkStart (mkName "test:call" "Foo") []) []
          ++ content bodyStart [testElement "Bar" []])
  /\ UnmarshalError "expected element type <Response> but have <Foo>"
     <> errMultiple.
Proof. split; [vm_compute; reflexivity|discriminate]. Qed.

Lemma Body_second_element_witness :
  Body_UnmarshalXML (UT := response_Unmarshaler) testBody response_zero
    (content bodyStart
       [CharData " "; testElement "Response" []; Comment "c";
        testElement "Bar" []]) bodyStart
  = Some (Some errMultiple, testBody,
          mkResponseT (mkName "test:call" "Response") "",
          content (mkStart (mkName "test:call" "Bar") []) []
          ++ content bodyStart []).
Proof.
  apply (proj1 (Body_second_element (UT := response_Unmarshaler)) testBody
           response_zero bodyStart
           [RToken (TCharData " ")] (mkStart (mkName "test:call" "Response") [])
           (content (mkStart (mkName "test:call" "Response") []) []
            ++ content bodyStart [Comment "c"; testElement "Bar" []])
           None testBody (mkResponseT (mkName "test:call" "Response") "")
           (content bodyStart [Comment "c"; testElement "Bar" []])
           [RToken (TComment "c")] (mkStart (mkName "test:call" "Bar") [])).
  - discriminate.
  - reflexivity.
  - reflexivity.
  - vm_compute. reflexivity.
  - reflexivity.
Defined.

Lemma Call_empty_body_before_unauthorized_witness :
  Call (UT := none_Unmarshaler)
    (testServer "401 Unauthorized" 401 "" []) testClient tt "" None None tt
  = Some (Some errBody, tt)
  /\ Call (UT := none_Unmarshaler)
       (setNewDecoder (testServer "401 Unauthorized" 401 "denied" [])
          (fun _ => reads emptyDocument))
       testClient tt "" None None tt
     = Some (Some errUnauthorized, tt).
Proof.
  split.
  - refine (proj1 (Call_empty_body_before_unauthorized (UT := none_Unmarshaler)
                     (testServer "401 Unauthorized" 401 "" []) testClient tt ""
                     None None tt "<Envelope/>"
                     (mkResponse "401 Unauthorized" 401 (None, "")) ""
                     eq_refl eq_refl eq_refl eq_refl eq_refl) eq_refl).
  - refine (proj2 (Call_empty_body_before_unauthorized (UT := none_Unmarshaler)
                     (testServer "401 Unauthorized" 401 "denied" []) testClient
                     tt "" None None tt "<Envelope/>"
                     (mkResponse "401 Unauthorized" 401 (None, "denied")) "denied"
                     eq_refl eq_refl eq_refl eq_refl eq_refl) _ eq_refl _).
    discriminate.
Defined.


Lemma Body_UnmarshalXML_content_guard_witness :
  Body_UnmarshalXML (UT := response_Unmarshaler) nilBody response_zero
    (content bodyStart [testElement "Response" []]) bodyStart
  = Some (Some errContent, nilBody, response_zero,
          content bodyStart [testElement "Response" []])
  /\ Body_UnmarshalXML (UT := response_Unmarshaler) testBody response_zero
       (content bodyStart [testElement "Response" []]) bodyStart
     = Body_Loop (UT := response_Unmarshaler)
         (S (length (content bodyStart [testElement "Response" []])))
         false testBody response_zero
         (content bodyStart [testElement "Response" []]).
Proof.
  split.
  - apply (proj1 (Body_UnmarshalXML_content_guard (UT := response_Unmarshaler)
                    nilBody response_zero _ bodyStart)).
    reflexivity.
  - apply (proj2 (Body_UnmarshalXML_content_guard (UT := response_Unmarshaler)
                    testBody response_zero _ bodyStart)).
    discriminate.
Defined.

Lemma Call_returns_fault_witness :
  Call (UT := none_Unmarshaler)
    (testServer "500 Internal Server Error" 500 "<Envelope>"
       (reads faultDocument))
    testClient tt "" None None tt
  = Some (Some (FaultError (setHTTPStatus testFault 500)), tt)
  /\ HTTPStatus (setHTTPStatus testFault 500) = 500%Z.
Proof.
  destruct (Call_returns_fault (UT := none_Unmarshaler)
              (testServer "500 Internal Server Error" 500 "<Envelope>"
                 (reads faultDocument))
              testClient tt "" None None tt "<Envelope/>"
              (mkResponse "500 Internal Server Error" 500 (None, "<Envelope>"))
              "<Envelope>" eq_refl eq_refl eq_refl eq_refl eq_refl
              (mkEnvelope (mkName envelopeNS "Envelope") None
                 (mkBody Name_zero (Some testFault) None))
              tt testFault)
    as (H1 & H2 & _).
  - discriminate.
  - discriminate.
  - vm_compute. reflexivity.
  - reflexivity.
  - split; [exact H1|exact H2].
Defined.

Lemma Fault_fields_trimmed_witness :
  exists f,
    DecodeElement_Fault Fault_zero
      (mkStart (mkName envelopeNS "Fault") [])
      (content (mkStart (mkName envelopeNS "Fault") []) plainFaultChildren ++ [])
    = Some (None, f, [])
    /\ Text f = TrimSpace "  Server exploded  "
    /\ trimmed "  Server exploded  " (Text f)
    /\ Text f = "Server exploded".
Proof.
  destruct (proj1 Fault_fields_trimmed
              (mkStart (mkName envelopeNS "Fault") []) plainFaultChildren
              [] eq_refl) as (f & Hd & Hf).
  exists f. split; [exact Hd|].
  destruct (proj2 (Hf "faultstring" (Text f) eq_refl)
              [Element (mkStart (mkName "" "faultcode") [])
                 [CharData "soap:Server"]]
              (mkStart (mkName "" "faultstring") [])
              [CharData "  Server exploded  "] [] eq_refl eq_refl eq_refl)
    as [Ht Htrim].
  split; [exact Ht|]. split; [exact Htrim|].
  rewrite Ht. reflexivity.
Defined.

Lemma Call_empty_body_witness :
  Call (UT := none_Unmarshaler)
    (testServer "200 OK" 200 "<Envelope>" (reads emptyDocument))
    testClient tt "" None None tt
  = Some (None, tt).
Proof.
  apply (Call_empty_body (UT := none_Unmarshaler)
           (testServer "200 OK" 200 "<Envelope>" (reads emptyDocument))
           testClient tt "" None None tt "<Envelope/>"
           (mkResponse "200 OK" 200 (None, "<Envelope>")) "<Envelope>"
           eq_refl eq_refl eq_refl eq_refl eq_refl
           []
           (mkStart (mkName envelopeNS "Envelope")
              [mkAttr (mkName "" "xmlns") envelopeNS])
           [envelopeElement "Body" []] []).
  - discriminate.
  - discriminate.
  - reflexivity.
  - reflexivity.
  - reflexivity.
  - intros ce kids [H|[]] _. inversion H. reflexivity.
Defined.

(** C9 as stated fails: the request of [Test_Marshal], encoded and
    decoded back through the body into a [request], has its [XMLName]
    set to the name of the element, which the original has not. *)
Lemma Body_round_trip_counterexample :
  Body_UnmarshalXML (UT := request_Unmarshaler) testBody request_zero
    (content bodyStart
       [request_marshal (mkRequestT Name_zero "value1" "value2")]) bodyStart
  = Some (None, testBody,
          mkRequestT (mkName "test:call" "Request") "value1" "value2", [])
  /\ mkRequestT (mkName "test:call" "Request") "value1" "value2"
     <> mkRequestT Name_zero "value1" "value2".
Proof. split; [vm_compute; reflexivity|discriminate]. Qed.

Lemma Body_round_trip_witness :
  Body_UnmarshalXML (UT := request_Unmarshaler) testBody request_zero
    (content bodyStart
       [request_marshal
          (mkRequestT (mkName "test:call" "Request") "value1" "value2")] ++ [])
    bodyStart
  = Some (None, testBody,
          mkRequestT (mkName "test:call" "Request") "value1" "value2", []).
Proof.
  apply (Body_round_trip (UT := request_Unmarshaler) request_marshal testBody
           request_zero
           (mkRequestT (mkName "test:call" "Request") "value1" "value2")
           (mkStart (mkName "test:call" "Request")
              [mkAttr (mkName "" "xmlns") "test:call"])
           [Element (mkStart (mkName "test:call" "attr1") []) [CharData "value1"];
            Element (mkStart (mkName "test:call" "attr2") []) [CharData "value2"]]
           bodyStart [] bodyStart).
  - reflexivity.
  - reflexivity.
  - reflexivity.
  - vm_compute. reflexivity.
Defined.

Lemma Body_ignores_other_tokens_witness :
  Body_Loop (UT := response_Unmarshaler) 3 false testBody response_zero
    (RToken (TCharData "text") :: content bodyStart [])
  = Body_Loop (UT := response_Unmarshaler) 2 false testBody response_zero
      (content bodyStart [])
  /\ Body_UnmarshalXML (UT := response_Unmarshaler) testBody response_zero
       ([RToken (TComment "c"); RToken (TProcInst "xml" "v")]
        ++ content bodyStart []) bodyStart
     = Body_UnmarshalXML (UT := response_Unmarshaler) testBody response_zero
         (content bodyStart []) bodyStart.
Proof.
  split.
  - apply (proj1 (Body_ignores_other_tokens (UT := response_Unmarshaler)
                    testBody response_zero (TCharData "text")
                    (content bodyStart []) eq_refl)).
  - apply (proj2 (Body_ignores_other_tokens (UT := response_Unmarshaler)
                    testBody response_zero (TCharData "text")
                    (content bodyStart []) eq_refl)).
    + discriminate.
    + reflexivity.
Defined.

(** * The further properties on the documents of the tests *)

Lemma Call_fault_response_witness :
  Call (UT := none_Unmarshaler)
    (testServer "500 Internal Server Error" 500 "<soap:Envelope>"
       (reads plainFaultDocument))
    testClient tt "" None None tt
  = Some (Some (FaultError
                  (mkFault (mkName envelopeNS "Fault") "soap:Server"
                     "Server exploded" "" "" 500)),
          tt)
  /\ Error (FaultError
              (mkFault (mkName envelopeNS "Fault") "soap:Server"
                 "Server exploded" "" "" 500))
     = "soap: soap:Server: Server exploded 500".
Proof.
  split; [|reflexivity].
  refine (Call_fault_response (UT := none_Unmarshaler)
            (testServer "500 Internal Server Error" 500 "<soap:Envelope>"
               (reads plainFaultDocument))
            testClient tt "" None None tt "<Envelope/>"
            (mkResponse "500 Internal Server Error" 500
               (None, "<soap:Envelope>"))
            "<soap:Envelope>" []
            (mkStart (mkName envelopeNS "Envelope")
               [mkAttr (mkName "xmlns" "soap") envelopeNS])
            [] (mkStart (mkName envelopeNS "Body") []) [] []
            eq_refl eq_refl eq_refl eq_refl eq_refl _ _ _ _ _ _ _
            [] (mkStart (mkName envelopeNS "Fault") []) plainFaultChildren []
            _ _ _ _);
    try reflexivity; discriminate.
Defined.

Lemma Call_discard_response_witness :
  Call (UT := none_Unmarshaler)
    (testServer "200 OK" 200 "<Envelope>" (reads callDocument))
    testClient tt "soap.action" (Some tt) None tt
  = Some (None, tt).
Proof.
  refine (Call_discard_response (UT := none_Unmarshaler)
            (testServer "200 OK" 200 "<Envelope>" (reads callDocument))
            testClient tt "soap.action" (Some tt) None tt "<Envelope/>"
            (mkResponse "200 OK" 200 (None, "<Envelope>"))
            "<Envelope>" [] envelopeStart [] bodyStart [] []
            eq_refl eq_refl eq_refl eq_refl eq_refl _ _ _ _ _ _ _
            [] responseStart [testElement "attr3" [CharData "value3"]] []
            _ _ _ _ _);
    try reflexivity; discriminate.
Defined.

Lemma Call_content_response_witness :
  Call (UT := response_Unmarshaler)
    (testServer "200 OK" 200 "<Envelope>" (reads callDocument))
    testClient tt "soap.action" (Some tt) (Some ifaceResponse) response_zero
  = Some (None, mkResponseT (mkName "test:call" "Response") "value3").
Proof.
  refine (Call_content_response (UT := response_Unmarshaler)
            (testServer "200 OK" 200 "<Envelope>" (reads callDocument))
            testClient tt "soap.action" (Some tt) (Some ifaceResponse)
            response_zero "<Envelope/>"
            (mkResponse "200 OK" 200 (None, "<Envelope>"))
            "<Envelope>" [] envelopeStart [] bodyStart [] []
            eq_refl eq_refl eq_refl eq_refl eq_refl _ _ _ _ _ _ _
            [] responseStart [testElement "attr3" [CharData "value3"]] []
            (mkResponseT (mkName "test:call" "Response") "value3")
            _ _ _ _ _ _);
    try reflexivity; try discriminate.
  intros rest.
  exact (response_Unmarshaler_content response_zero responseStart
           [testElement "attr3" [CharData "value3"]] rest eq_refl).
Defined.

Lemma Call_fault_element_witness :
  Call (UT := none_Unmarshaler)
    (testServer "500 Internal Server Error" 500 "<Envelope>"
       (reads faultDocument))
    testClient tt "" None None tt
  = Some (Some (FaultError
                  (mkFault (mkName envelopeNS "Fault") "" "fault text" "" "" 500)),
          tt)
  /\ Error (FaultError
              (mkFault (mkName envelopeNS "Fault") "" "fault text" "" "" 500))
     = "soap: fault text 500".
Proof.
  split; [|reflexivity].
  refine (Call_fault_element (UT := none_Unmarshaler)
            (testServer "500 Internal Server Error" 500 "<Envelope>"
               (reads faultDocument))
            testClient tt "" None None tt "<Envelope/>"
            (mkResponse "500 Internal Server Error" 500 (None, "<Envelope>"))
            "<Envelope>" [] envelopeStart [] bodyStart [] []
            eq_refl eq_refl eq_refl eq_refl eq_refl _ _ _ _ _ _ _
            serverFault [] [] _ _ _);
    try reflexivity; discriminate.
Defined.

Lemma Call_not_an_envelope_witness :
  Call (UT := response_Unmarshaler)
    (testServer "502 Bad Gateway" 502 "<html>" (reads htmlDocument))
    testClient tt "soap.action" (Some tt) (Some ifaceResponse) response_zero
  = Some (Some (errorString "soap: 502 Bad Gateway (502)"), response_zero).
Proof.
  refine (Call_not_an_envelope (UT := response_Unmarshaler)
            (testServer "502 Bad Gateway" 502 "<html>" (reads htmlDocument))
            testClient tt "soap.action" (Some tt) (Some ifaceResponse)
            response_zero "<Envelope/>"
            (mkResponse "502 Bad Gateway" 502 (None, "<html>")) "<html>"
            eq_refl eq_refl eq_refl eq_refl eq_refl _ _
            [] (mkStart (mkName "" "html") [])
            [RToken (TCharData "Bad Gateway");
             RToken (TEndElement (mkName "" "html"))]
            _ _ _);
    try reflexivity; discriminate.
Defined.

Lemma Call_no_element_witness :
  Call (UT := response_Unmarshaler)
    (testServer "502 Bad Gateway" 502 "Bad Gateway" (reads textDocument))
    testClient tt "soap.action" (Some tt) (Some ifaceResponse) response_zero
  = Some (Some (errorString "soap: 502 Bad Gateway (502)"), response_zero).
Proof.
  refine (Call_no_element (UT := response_Unmarshaler)
            (testServer "502 Bad Gateway" 502 "Bad Gateway" (reads textDocument))
            testClient tt "soap.action" (Some tt) (Some ifaceResponse)
            response_zero "<Envelope/>"
            (mkResponse "502 Bad Gateway" 502 (None, "Bad Gateway"))
            "Bad Gateway"
            eq_refl eq_refl eq_refl eq_refl eq_refl _ _ _);
    try reflexivity; discriminate.
Defined.

Lemma Call_second_element_witness :
  Call (UT := response_Unmarshaler)
    (testServer "200 OK" 200 "<Envelope>" (reads twoDocument))
    testClient tt "soap.action" (Some tt) (Some ifaceResponse) response_zero
  = Some (Some (errorString "soap: 200 OK (200)"),
          mkResponseT (mkName "test:call" "Response") "value3").
Proof.
  refine (Call_second_element (UT := response_Unmarshaler)
            (testServer "200 OK" 200 "<Envelope>" (reads twoDocument))
            testClient tt "soap.action" (Some tt) (Some ifaceResponse)
            response_zero "<Envelope/>"
            (mkResponse "200 OK" 200 (None, "<Envelope>")) "<Envelope>"
            eq_refl eq_refl eq_refl eq_refl eq_refl _ _
            [] envelopeStart [] bodyStart _ _ _ _
            [] responseStart [testElement "attr3" [CharData "value3"]] []
            (mkStart (mkName "test:call" "Response") [])
            [RToken (TEndElement (mkName "test:call" "Response"));
             RToken (TEndElement (mkName envelopeNS "Body"));
             RToken (TEndElement (mkName envelopeNS "Envelope"))]
            (mkResponseT (mkName "test:call" "Response") "value3")
            _ _ _ _ _ _);
    try reflexivity; try discriminate.
  intros rest.
  exact (response_Unmarshaler_content response_zero responseStart
           [testElement "attr3" [CharData "value3"]] rest eq_refl).
Defined.

Lemma Call_fault_then_element_witness :
  Call (UT := response_Unmarshaler)
    (testServer "500 Internal Server Error" 500 "<Envelope>"
       (reads faultTwoDocument))
    testClient tt "soap.action" (Some tt) (Some ifaceResponse) response_zero
  = Some (Some (errorString "soap: 500 Internal Server Error (500)"),
          response_zero).
Proof.
  refine (Call_fault_then_element (UT := response_Unmarshaler)
            (testServer "500 Internal Server Error" 500 "<Envelope>"
               (reads faultTwoDocument))
            testClient tt "soap.action" (Some tt) (Some ifaceResponse)
            response_zero "<Envelope/>"
            (mkResponse "500 Internal Server Error" 500 (None, "<Envelope>"))
            "<Envelope>"
            eq_refl eq_refl eq_refl eq_refl eq_refl _ _
            [] envelopeStart [] bodyStart _ _ _ _
            [] Fault_start
            [envelopeElement "faultstring" [CharData "      fault text"]] []
            responseStart
            (content responseStart [testElement "attr3" [CharData "value3"]]
             ++ [RToken (TEndElement (mkName envelopeNS "Body"));
                 RToken (TEndElement (mkName envelopeNS "Envelope"))])
            _ _ _ _);
    try reflexivity; discriminate.
Defined.

Lemma trimSpace_UnmarshalXML_trims_witness :
  trimSpace_UnmarshalXML "text"
    (content (mkStart (mkName envelopeNS "faultstring") [])
       [CharData "      fault text"] ++ [])
    (mkStart (mkName envelopeNS "faultstring") [])
  = Some (None, "fault text", [])
  /\ TrimSpace "fault text" = "fault text".
Proof.
  destruct trimSpace_UnmarshalXML_trims as (Hset & _ & Htrimmed).
  split.
  - exact (Hset "text" (mkStart (mkName envelopeNS "faultstring") [])
             [CharData "      fault text"] []).
  - exact (Htrimmed "text"
             (content (mkStart (mkName envelopeNS "faultstring") [])
                [CharData "      fault text"])
             (mkStart (mkName envelopeNS "faultstring") [])
             "fault text" [] eq_refl).
Defined.

Lemma Body_UnmarshalXML_stops_witness :
  Body_UnmarshalXML (UT := none_Unmarshaler) testBody tt
    [RToken (TCharData " "); RError (SyntaxError "unexpected EOF" 1)] bodyStart
  = Some (Some (SyntaxError "unexpected EOF" 1), testBody, tt,
          [RError (SyntaxError "unexpected EOF" 1)])
  /\ Body_UnmarshalXML (UT := none_Unmarshaler) testBody tt
       [RToken (TCharData " ")] bodyStart
     = Some (Some io_EOF, testBody, tt, []).
Proof.
  destruct (Body_UnmarshalXML_stops (UT := none_Unmarshaler) testBody tt
              bodyStart [RToken (TCharData " ")]) as (Herr & Heof & _).
  - discriminate.
  - reflexivity.
  - split; [exact (Herr (SyntaxError "unexpected EOF" 1) [])|exact Heof].
Defined.

Lemma Call_error_prefix_witness :
  exists msg,
    Error (FaultError
             (mkFault (mkName envelopeNS "Fault") "" "fault text" "" "" 500))
    = ("soap: " ++ msg)%string.
Proof.
  apply (Call_error_prefix (UT := none_Unmarshaler)
           (testServer "500 Internal Server Error" 500 "<Envelope>"
              (reads faultDocument))
           testClient tt "" None None tt
           (FaultError
              (mkFault (mkName envelopeNS "Fault") "" "fault text" "" "" 500))
           tt).
  vm_compute. reflexivity.
Defined.

Lemma Call_fails_before_exchange_witness :
  Call (UT := none_Unmarshaler)
    (setDo brokenEncoder (fun _ _ => inl io_EOF)) testClient tt "" None None tt
  = Some (Some (errorString "soap: xml: unsupported type: chan int"), tt).
Proof.
  apply (Call_fails_before_exchange (UT := none_Unmarshaler)
           brokenEncoder testClient tt "" None None tt
           (errorString "xml: unsupported type: chan int")
           (fun _ _ => inl io_EOF)).
  left. reflexivity.
Defined.

Lemma Call_exchange_error_witness :
  Call (UT := none_Unmarshaler)
    (setNewDecoder brokenTransport (fun _ => [])) testClient tt "" None None tt
  = Some (Some (errorString "soap: connection refused"), tt).
Proof.
  apply (Call_exchange_error (UT := none_Unmarshaler)
           brokenTransport testClient tt "" None None tt "<Envelope/>"
           (errorString "connection refused") (fun _ => [])).
  - reflexivity.
  - reflexivity.
  - reflexivity.
  - left. reflexivity.
Defined.

Lemma NewClient_request_witness :
  postRequest (I := unit)
    (fst (NewClient (TLS := unit) "http://127.0.0.1"
            (mkConfig (Some (mkBasicAuth "user" "pass")) None 0)))
    "" "<Envelope/>"
  = mkRequest "POST" "http://127.0.0.1" "<Envelope/>"
      [("Content-Type", ("text/xml; charset=" ++ quote ++ "utf-8" ++ quote)%string);
       ("SOAPAction", "")]
      (Some ("user", "pass")) true.
Proof.
  exact (proj2 (NewClient_request (Req := unit) (I := unit) (TLS := unit)
                  "http://127.0.0.1"
                  (mkConfig (Some (mkBasicAuth "user" "pass")) None 0)
                  [] None "" "<Envelope/>")).
Defined.
